(** * Sealing API and validator-set multiplexer of go-ethereum-aura

    A shallow embedding of
    - [consensus/validatorset/multi.go]: the multiplexer that picks a
      validator-set implementation by block height;
    - the ethash RPC API ([GetWork], [GetShardingWork], [SubmitWork],
      [SubmitWorkBLS], [SubmitHashRate]): each call is a short sequence of
      channel operations against the remote sealer loop;
    - the epoch start assignment and the seal verification exercised by the
      pandora tests.

    Go values are modelled as follows: [*big.Int] and [int] as [Z],
    [uint64] as [Z] with its wrap-around written out, [common.Hash] as [N],
    [string] as [string], a nilable [error] as [option error], a Go map as
    [gmap], an interface as a type class, a panic as [Panicked]. *)

From Stdlib Require Import ZArith Lia Ascii.
From stdpp Require Import base decidable option list sorting gmap strings pretty.

Open Scope Z_scope.
Set Warnings "-clear-no-such-hyp".

(** ** Shared Go-level notions *)

(** What a Go call does when control leaves it: it returns a value, or a
    panic unwinds it. *)
Inductive outcome (A : Type) : Type :=
| Returned (a : A)
| Panicked (msg : string).
Arguments Returned {A} a.
Arguments Panicked {A} msg.

Definition is_panic {A} (o : outcome A) : Prop :=
  match o with Panicked _ => True | Returned _ => False end.

#[global] Instance is_panic_dec {A} (o : outcome A) : Decision (is_panic o).
Proof. destruct o; simpl; apply _. Defined.

Definition Hash := N.
Definition Address := N.

(** [x.Uint64()] of a [*big.Int]: the low 64 bits of its magnitude. *)
Definition Uint64 (x : Z) : Z := Z.abs x mod 2 ^ 64.

Module types.
(** The fields of [types.Header] that the modelled code reads. *)
Record Header := mkHeader {
  ParentHash : Hash;
  Number : Z;
  Time : Z;
  Extra : list N;
  MixDigest : Hash
}.
End types.
Import types.

(** ** consensus/validatorset/multi.go *)
Module validatorset.

(** The [ValidatorSet] interface; [Receipts], [Chain], [Db] and [State]
    are the collaborators passed through to the implementation. *)
Class ValidatorSet (V Receipts Chain Db State : Type) := {
  SignalToChange :
    V → bool → Receipts → Header → Chain → Db → list Address * bool * bool;
  FinalizeChange : V → Header → State → option string;
  GetValidatorsByCaller : V → Z → list Address;
  PrepareBackend : V → Header → Chain → Db → option string
}.

Definition emptyPanic : string :=
  "constructor validation ensures that there is at least one validator set for block 0".
Definition nilPanic : string :=
  "invalid memory address or nil pointer dereference".

(** The order that [sort.Slice] establishes with the comparison
    [setNumbers[i] > setNumbers[j]]: greater keys first. *)
Definition descending : relation Z := λ a b, b ≤ a.

#[global] Instance descending_dec a b : Decision (descending a b).
Proof. unfold descending. apply _. Defined.

(** [sort.Slice(setNumbers, func(i, j) bool { return setNumbers[i] > setNumbers[j] })] *)
Definition sortDescending (setNumbers : list Z) : list Z :=
  merge_sort descending setNumbers.

(** The selection loop of [correctSet]: [setNum] keeps its initial value
    unless some [setNumber] satisfies [blockNumber >= setNumber]; the
    first such one is taken and the loop breaks. *)
Fixpoint selectSetNum (blockNumber : Z) (setNumbers : list Z) (setNum : Z) : Z :=
  match setNumbers with
  | [] => setNum
  | setNumber :: rest =>
      if decide (setNumber ≤ blockNumber) then setNumber
      else selectSetNum blockNumber rest setNum
  end.

Section Multi.
Context {V Receipts Chain Db State : Type}.
Context `{!ValidatorSet V Receipts Chain Db State}.

(** [type Multi struct { sets map[int]ValidatorSet }] *)
Record Multi := NewMulti { sets : gmap Z V }.

(** [correctSet], run on the keys collected in the order [keys] (Go
    ranges over a map in an unspecified order). *)
Definition correctSetFrom (multi : Multi) (keys : list Z) (blockNumber : Z)
  : outcome (option V * Z) :=
  if decide (size (sets multi) = 0%nat) then Panicked emptyPanic
  else
    let setNumbers := sortDescending keys in
    let setNum := selectSetNum blockNumber setNumbers 0 in
    Returned (sets multi !! setNum, setNum).

Definition correctSet (multi : Multi) (blockNumber : Z) : outcome (option V * Z) :=
  correctSetFrom multi (map_to_list (sets multi)).*1 blockNumber.

(** A method call on the resolved interface value; calling a method
    of a nil interface panics. *)
Definition callOn {A} (validator : option V) (method : V → A) : outcome A :=
  match validator with
  | Some v => Returned (method v)
  | None => Panicked nilPanic
  end.

Definition Multi_SignalToChange (multi : Multi) (first : bool)
    (receipts : Receipts) (header : Header) (chain : Chain) (chainDb : Db)
  : outcome (list Address * bool * bool) :=
  match correctSet multi (Number header) with
  | Panicked msg => Panicked msg
  | Returned (validator, setBlockNumber) =>
      let first := bool_decide (setBlockNumber = Number header) in
      callOn validator (λ v, SignalToChange v first receipts header chain chainDb)
  end.

Definition Multi_FinalizeChange (multi : Multi) (header : Header) (state : State)
  : outcome (option string) :=
  match correctSet multi (Number header) with
  | Panicked msg => Panicked msg
  | Returned (validator, _) => callOn validator (λ v, FinalizeChange v header state)
  end.

Definition Multi_GetValidatorsByCaller (multi : Multi) (blockNumber : Z)
  : outcome (list Address) :=
  match correctSet multi blockNumber with
  | Panicked msg => Panicked msg
  | Returned (validator, _) =>
      callOn validator (λ v, GetValidatorsByCaller v blockNumber)
  end.

Definition Multi_CountValidators (multi : Multi) : outcome Z :=
  Panicked "implement me".

Definition Multi_PrepareBackend (multi : Multi) (header : Header)
    (chain : Chain) (chainDb : Db) : outcome (option string) :=
  match correctSet multi (Number header) with
  | Panicked msg => Panicked msg
  | Returned (validator, _) =>
      callOn validator (λ v, PrepareBackend v header chain chainDb)
  end.

(** [h] is the greatest registered activation height at or below
    [blockNumber]. *)
Definition greatestAtMost (multi : Multi) (blockNumber h : Z) : Prop :=
  is_Some (sets multi !! h) ∧ h ≤ blockNumber ∧
  ∀ k, is_Some (sets multi !! k) → k ≤ blockNumber → k ≤ h.
End Multi.
Arguments Multi V : clear implicits.

End validatorset.

(** ** The ethash RPC API *)
Module ethash.

(** [errors.New(msg)]; a nilable Go [error] is an [option error]. *)
Definition error := string.

Definition errEthashStopped : error := "ethash stopped".
Definition errInvalidParentHash : error := "invalid parent hash".
Definition errInvalidBlockNumber : error := "invalid block number".
Definition errNotSupported : error := "not supported".

(** [[4]string], and its zero value [[4]string{}]. *)
Definition WorkPackage : Type := string * string * string * string.
Definition emptyWork : WorkPackage :=
  (EmptyString, EmptyString, EmptyString, EmptyString).

Definition BlockNonce := N.
Definition bytes := list N.

(** [types.Block] as far as the API looks at it: [Header()] yields the
    header of the block, or nil. *)
Record Block := mkBlock { Block_Header : option Header }.

(** The remote sealer: the API reads its current candidate block; its
    channels are the ones the calls below operate on. *)
Record remoteSealer := mkRemote { currentBlock : Block }.
Record Ethash := mkEthash { remote : option remoteSealer }.
Record API := mkAPI { ethash : Ethash }.

(** What a call hands to the sealer loop: [&sealWork{...}] on
    [fetchWorkCh], [&mineResult{...}] on [submitWorkCh],
    [&hashrate{...}] on [submitRateCh]. *)
Inductive request : Type :=
| sealWork
| mineResult (nonce : BlockNonce) (mixDigest hash : Hash) (blsSeal : option bytes)
| hashrate (rate : Z) (id : Hash).

(** A call in progress, one constructor per blocking statement of the
    API:
    - [SendOrExit req sent exited] is
      [select { case ch <- req: sent; case <-exitCh: exited }];
    - [RecvWorkOrErr onWork onErr] is
      [select { case work := <-workCh: ...; case err := <-errc: ... }];
    - [RecvErr onErr] is [err := <-errc];
    - [RecvDone next] is [<-done]. *)
Inductive call (R : Type) : Type :=
| Return (r : R)
| Panic (msg : string)
| SendOrExit (req : request) (sent exited : call R)
| RecvWorkOrErr (onWork : WorkPackage → call R) (onErr : option error → call R)
| RecvErr (onErr : option error → call R)
| RecvDone (next : call R).
Arguments Return {R} r.
Arguments Panic {R} msg.
Arguments SendOrExit {R} req sent exited.
Arguments RecvWorkOrErr {R} onWork onErr.
Arguments RecvErr {R} onErr.
Arguments RecvDone {R} next.

(** What the rest of the node can do to a blocked call: the sealer loop
    takes the request off its channel, the exit channel is found
    closed, or a reply arrives on one of the call's own channels. *)
Inductive event : Type :=
| Enqueued
| ExitClosed
| WorkReply (w : WorkPackage)
| ErrReply (e : option error)
| DoneReply.

(** One communication: [Some c'] when the blocked statement has a case
    for the event, [None] when it has none (the call stays blocked). *)
Definition step {R} (c : call R) (e : event) : option (call R) :=
  match c, e with
  | SendOrExit _ sent _, Enqueued => Some sent
  | SendOrExit _ _ exited, ExitClosed => Some exited
  | RecvWorkOrErr onWork _, WorkReply w => Some (onWork w)
  | RecvWorkOrErr _ onErr, ErrReply err => Some (onErr err)
  | RecvErr onErr, ErrReply err => Some (onErr err)
  | RecvDone next, DoneReply => Some next
  | _, _ => None
  end.

(** The call after the events [es] have occurred in this order; an
    event the call is not waiting for leaves it where it is. *)
Fixpoint feed {R} (c : call R) (es : list event) : call R :=
  match es with
  | [] => c
  | e :: es' =>
      match step c e with
      | Some c' => feed c' es'
      | None => feed c es'
      end
  end.

(** The result of a call that has finished; [None] while it is blocked. *)
Definition finished {R} (c : call R) : option (outcome R) :=
  match c with
  | Return r => Some (Returned r)
  | Panic msg => Some (Panicked msg)
  | _ => None
  end.

(** A complete execution: every event of the trace is one the call was
    waiting for, and the call has finished after the last one. *)
Fixpoint run {R} (c : call R) (trace : list event) : option (outcome R) :=
  match trace with
  | [] => finished c
  | e :: trace' =>
      match step c e with
      | Some c' => run c' trace'
      | None => None
      end
  end.

(** The blocked statement has a case for the shutdown signal. *)
Definition racesShutdown {R} (c : call R) : Prop := is_Some (step c ExitClosed).

(** The request a blocked call is offering to the sealer loop. *)
Definition offered {R} (c : call R) : option request :=
  match c with
  | SendOrExit req _ _ => Some req
  | _ => None
  end.

(** [GetWork] *)
Definition GetWork (api : API) : call (WorkPackage * option error) :=
  match remote (ethash api) with
  | None => Return (emptyWork, Some errNotSupported)
  | Some _ =>
      SendOrExit sealWork
        (RecvWorkOrErr
           (λ work, Return (work, None))
           (λ err, Return (emptyWork, err)))
        (Return (emptyWork, Some errEthashStopped))
  end.

(** The checks [GetShardingWork] makes on the work it received. *)
Definition checkLineage (curBlockHeader : option Header) (parentHash : Hash)
    (blockNumber : Z) (work : WorkPackage) : WorkPackage * option error :=
  let emptyRes := emptyWork in
  match curBlockHeader with
  | Some curBlockHeader =>
      if decide (blockNumber = 1) then (work, None)
      else if decide (ParentHash curBlockHeader ≠ parentHash)
      then (emptyRes, Some errInvalidParentHash)
      else if decide (Uint64 (Number curBlockHeader) ≠ blockNumber)
      then (emptyRes, Some errInvalidBlockNumber)
      else (work, None)
  | None => (work, None)
  end.

(** [GetShardingWork] *)
Definition GetShardingWork (api : API) (parentHash : Hash) (blockNumber : Z)
  : call (WorkPackage * option error) :=
  let emptyRes := emptyWork in
  match remote (ethash api) with
  | None => Return (emptyWork, Some errNotSupported)
  | Some remote =>
      SendOrExit sealWork
        (RecvWorkOrErr
           (λ work,
              let curBlockHeader := Block_Header (currentBlock remote) in
              Return (checkLineage curBlockHeader parentHash blockNumber work))
           (λ err, Return (emptyRes, err)))
        (Return (emptyRes, Some errEthashStopped))
  end.

(** [SubmitWork] *)
Definition SubmitWork (api : API) (nonce : BlockNonce) (hash digest : Hash)
  : call bool :=
  match remote (ethash api) with
  | None => Return false
  | Some _ =>
      let blsSignature : option bytes := None in
      SendOrExit (mineResult nonce digest hash blsSignature)
        (RecvErr (λ err, Return (bool_decide (err = None))))
        (Return false)
  end.

(** [common.BytesToHash]: the bytes read as a big-endian number, cropped
    from the left to 32 bytes. *)
Definition bigEndian (b : bytes) : N :=
  foldl (λ acc x, acc * 256 + x)%N 0%N b.
Definition BytesToHash (b : bytes) : Hash :=
  bigEndian (drop (length b - 32) b).

Section SubmitWorkBLS.
(** [hexutil.Decode] is defined in [common/hexutil]; [None] stands for
    its error result. [hexutil.MustDecode] panics on that error. *)
Variable hexutil_Decode : string → option bytes.
(** The length of the array type [BlsSignatureBytes]. *)
Variable BlsSignatureLen : nat.

(** [copy(blsSignatureBytes[:], signatureBytes[:])] into a zeroed array. *)
Definition copyIntoSignature (signatureBytes : bytes) : bytes :=
  take BlsSignatureLen (signatureBytes ++ replicate BlsSignatureLen 0%N).

(** [SubmitWorkBLS] *)
Definition SubmitWorkBLS (api : API) (nonce : BlockNonce) (hash : Hash)
    (hexSignatureString : string) : call bool :=
  match remote (ethash api) with
  | None => Return false
  | Some _ =>
      match hexutil_Decode hexSignatureString with
      | None => Panic "hexutil.MustDecode"
      | Some signatureBytes =>
          let blsSignatureBytes := copyIntoSignature signatureBytes in
          SendOrExit
            (mineResult nonce (BytesToHash (take 32 blsSignatureBytes)) hash
               (Some blsSignatureBytes))
            (RecvErr (λ err, Return (bool_decide (err = None))))
            (Return false)
      end
  end.
End SubmitWorkBLS.

(** The executions of a submission and the boolean each returns: without
    remote sealer the call returns at once; otherwise either the exit
    channel wins the first select, or the sealer loop takes the request
    and answers on [errc]. *)
Definition submissionVerdict (api : API) (trace : list event) (accepted : bool) : Prop :=
  match remote (ethash api) with
  | None => trace = [] ∧ accepted = false
  | Some _ =>
      (trace = [ExitClosed] ∧ accepted = false) ∨
      (∃ err, trace = [Enqueued; ErrReply err] ∧
              accepted = bool_decide (err = None))
  end.

(** [SubmitHashRate] *)
Definition SubmitHashRate (api : API) (rate : Z) (id : Hash) : call bool :=
  match remote (ethash api) with
  | None => Return false
  | Some _ =>
      SendOrExit (hashrate rate id)
        (RecvDone (Return true))
        (Return false)
  end.

End ethash.

(** ** common/hexutil *)
Module hexutil.
Import ethash.

Definition hexDigit (a : ascii) : option N :=
  let n := Ascii.N_of_ascii a in
  if decide (48 ≤ n ≤ 57)%N then Some (n - 48)%N
  else if decide (97 ≤ n ≤ 102)%N then Some (n - 87)%N
  else if decide (65 ≤ n ≤ 70)%N then Some (n - 55)%N
  else None.

Fixpoint decodePairs (s : string) : option bytes :=
  match s with
  | EmptyString => Some []
  | String a (String b rest) =>
      match hexDigit a, hexDigit b, decodePairs rest with
      | Some hi, Some lo, Some tl => Some ((hi * 16 + lo)%N :: tl)
      | _, _, _ => None
      end
  | String _ EmptyString => None
  end.

(** Modelled from the spec: the signature blob of a submission is
    hex-encoded (External interfaces); the decoder itself is the one
    of the package [common/hexutil]. An input decodes when
    it is a [0x] prefix followed by an even number of hex digits, to the
    bytes these denote; every other input is an error. *)
Definition Decode (input : string) : option bytes :=
  match input with
  | String "0" (String x rest) =>
      if decide (x = "x"%char ∨ x = "X"%char) then
        match rest with
        | EmptyString => Some []
        | _ => decodePairs rest
        end
      else None
  | _ => None
  end.
End hexutil.

(** ** Epochs and seal verification (pandora mode) *)
Module pandora.
Import ethash.

(** [time.Time] as nanoseconds since the Unix epoch, [time.Duration] as
    nanoseconds. *)
Definition Second : Z := 10 ^ 9.
Definition Time_Add (t d : Z) : Z := t + d.
Definition Time_Unix (t : Z) : Z := t / Second.

(** [int64] arithmetic of [time.Duration] products. *)
Definition wrapInt64 (x : Z) : Z := (x + 2 ^ 63) mod 2 ^ 64 - 2 ^ 63.
Definition Duration_mul (a b : Z) : Z := wrapInt64 (a * b).

(** The constants of the deployment, declared with the pandora engine.
    [validatorListLen] is the size of the validator set,
    [SlotTimeDuration] the length of a slot in seconds, [slotTolerance]
    the clock-skew allowance of the timing policy, in seconds. *)
Class Deployment := {
  validatorListLen : Z;
  SlotTimeDuration : Z;
  slotTolerance : Z
}.

(** The signature collaborator ([common2.SecretKey], [common2.PublicKey],
    [common2.Signature]). *)
Class Bls := {
  PublicKey : Type;
  SecretKey : Type;
  Signature : Type;
  SecretKey_PublicKey : SecretKey → PublicKey;
  SecretKey_Sign : SecretKey → Hash → Signature;
  Signature_Verify : Signature → PublicKey → Hash → bool;
  Signature_Marshal : Signature → bytes
}.

Section Epochs.
Context `{Deployment} `{Bls}.

(** The fields of [MinimalEpochConsensusInfo] that the tests read and
    write. *)
Record MinimalEpochConsensusInfo := mkInfo {
  Epoch : N;
  ValidatorsList : list PublicKey;
  EpochTimeStart : Z;
  EpochTimeStartUnix : Z;
  InfoSlotTimeDuration : Z
}.

(** [NewMinimalConsensusInfo(epoch)]: the record of the epoch, nothing
    assigned yet. *)
Definition NewMinimalConsensusInfo (epoch : N) : MinimalEpochConsensusInfo :=
  {| Epoch := epoch; ValidatorsList := []; EpochTimeStart := 0;
     EpochTimeStartUnix := 0; InfoSlotTimeDuration := SlotTimeDuration |}.

(** [AssignValidators] *)
Definition AssignValidators (info : MinimalEpochConsensusInfo)
    (validatorsList : list PublicKey) : MinimalEpochConsensusInfo :=
  {| Epoch := Epoch info; ValidatorsList := validatorsList;
     EpochTimeStart := EpochTimeStart info;
     EpochTimeStartUnix := EpochTimeStartUnix info;
     InfoSlotTimeDuration := InfoSlotTimeDuration info |}.

(** The width of an epoch: validator-set size times slot duration. *)
Definition epochWidth : Z := validatorListLen * (SlotTimeDuration * Second).

(** Modelled from the spec: [AssignEpochStartFromGenesis] is defined
    with the pandora engine, of which the tests are modelled here.
    "Epoch 0's start time is the deployment
    genesis time; each subsequent epoch's start = previous start +
    epoch width". *)
Definition epochStartFromGenesis (genesisTime : Z) (epoch : N) : Z :=
  N.iter epoch (λ previousStart, Time_Add previousStart epochWidth) genesisTime.

(** Modelled from the spec: [AssignEpochStartFromGenesis] stores the
    start computed from the genesis time for the epoch of the record, as
    a time and as Unix seconds. *)
Definition AssignEpochStartFromGenesis (info : MinimalEpochConsensusInfo)
    (genesisTime : Z) : MinimalEpochConsensusInfo :=
  let start := epochStartFromGenesis genesisTime (Epoch info) in
  {| Epoch := Epoch info; ValidatorsList := ValidatorsList info;
     EpochTimeStart := start;
     EpochTimeStartUnix := Time_Unix start mod 2 ^ 64;
     InfoSlotTimeDuration := InfoSlotTimeDuration info |}.

(** [TestMinimalEpochConsensusInfo_AssignEpochStartFromGenesis]:
    [maxIterations := 2 ^ 7] is an exclusive or in Go. *)
Definition maxIterations : Z := Z.lxor 2 7.

(** The value the test expects for iteration [i]:
    [genesisTime.Add(time.Duration(SlotTimeDuration) * time.Second *
    time.Duration(i) * time.Duration(validatorListLen))]. *)
Definition expectedEpochTime (genesisTime : Z) (i : Z) : Z :=
  let seconds :=
    Duration_mul (Duration_mul (Duration_mul SlotTimeDuration Second) i)
      validatorListLen in
  Time_Add genesisTime seconds.

(** What the test asserts in iteration [i]. *)
Definition epochStartAssertion (genesisTime : Z) (i : Z) : Prop :=
  let consensusInfo :=
    AssignEpochStartFromGenesis (NewMinimalConsensusInfo (Z.to_N i)) genesisTime in
  Time_Unix (expectedEpochTime genesisTime i)
  = Time_Unix (EpochTimeStart consensusInfo).

(** [uint64] arithmetic. *)
Definition wrapUint64 (x : Z) : Z := x mod 2 ^ 64.

(** [TestEthash_Prepare_Pandora]: the start of epoch [index] in Unix
    seconds as the test inserts it,
    [uint64(index)*uint64(time.Duration(SlotTimeDuration))*
    uint64(len(validatorPublicList)) + uint64(genesisStart.Unix())]. *)
Definition timePassed (index : Z) (genesisStart : Z) : Z :=
  wrapUint64
    (wrapUint64
       (wrapUint64 (wrapUint64 index * wrapUint64 SlotTimeDuration)
        * wrapUint64 validatorListLen)
     + wrapUint64 (Time_Unix genesisStart)).
End Epochs.

(** The consensus metadata of the header extension, and its sealed
    variant ([FromExtraDataAndSignature]). *)
Record PandoraExtraData := mkExtra { Slot : N; ExtraEpoch : N; Turn : N }.

Record PandoraExtraDataSealed `{Bls} := mkSealed {
  sealedData : PandoraExtraData;
  BlsSignatureBytes : Signature
}.

Definition FromExtraDataAndSignature `{Bls} (extraData : PandoraExtraData)
    (signature : Signature) : PandoraExtraDataSealed :=
  mkSealed _ extraData signature.

(** The encoding and hashing collaborators: the RLP codec of the
    extension, [ethash.SealHash], [header.Hash()], the printing of
    hashes and byte slices, and [herumi.CompressedSize].
    [rlp_EncodeExtra] gives the bytes of [rlp.EncodeToBytes(extraData)],
    whose error the caller drops; [rlp_EncodeSealed] gives both results
    of [rlp.EncodeToBytes(extraDataWithSignature)], the bytes and the
    error. *)
Class Codec `{Bls} := {
  rlp_EncodeExtra : PandoraExtraData → bytes;
  rlp_EncodeSealed : PandoraExtraDataSealed → bytes * option error;
  rlp_DecodeSealed : bytes → option PandoraExtraDataSealed;
  SealHash : Header → Hash;
  Header_Hash : Header → Hash;
  Hash_String : Hash → string;
  bytes_String : bytes → string;
  CompressedSize : nat
}.

(** The failures of seal verification. *)
Inductive sealError : Type :=
| MalformedSeal
| TurnOutOfRange
| EpochNotFound
| InvalidSignature (message : string)
| StaleOrFutureSlot.

Section Seal.
Context `{Deployment} `{Codec}.

(** [TestVerifySeal]: the error the test expects for a header whose
    signature does not verify,
    [fmt.Errorf("invalid signature: %s in header hash: %s with sealHash: %s",
    blsSignature.Marshal(), header.Hash().String(), sealHash.String())]. *)
Definition expectedErr (blsSignature : Signature) (header : Header)
    (sealHash : Hash) : sealError :=
  InvalidSignature
    ("invalid signature: " +:+ bytes_String (Signature_Marshal blsSignature)
     +:+ " in header hash: " +:+ Hash_String (Header_Hash header)
     +:+ " with sealHash: " +:+ Hash_String sealHash).

Definition sliceBoundsPanic : string := "slice bounds out of range".

(** [generatePandoraSealedHeaderByKey] of the tests: the header is
    hashed with the unsealed extension and an empty mix digest, the
    hash is signed, and the signature is put into both fields. The call
    panics when the signature does not verify under its own key, when
    [signature.Marshal()[:herumi.CompressedSize]] reaches beyond the
    marshalled slice (whose capacity is taken to be its length), and
    when the sealed extension does not encode. *)
Definition generatePandoraSealedHeaderByKey (privKey : SecretKey)
    (headerNumber : Z) (headerTime : Z) (extraData : PandoraExtraData)
  : outcome (Header * Hash * Signature) :=
  let extraDataBytes := rlp_EncodeExtra extraData in
  let header :=
    {| ParentHash := 0%N; Number := headerNumber;
       Time := Time_Unix headerTime mod 2 ^ 64;
       Extra := extraDataBytes; MixDigest := 0%N |} in
  let headerHash := SealHash header in
  let signature := SecretKey_Sign privKey headerHash in
  let extraDataWithSignature := FromExtraDataAndSignature extraData signature in
  let verified := Signature_Verify signature (SecretKey_PublicKey privKey) headerHash in
  if negb verified then Panicked "Signature should be valid"
  else if decide (length (Signature_Marshal signature) < CompressedSize)%nat
  then Panicked sliceBoundsPanic
  else
    let compressedSignature := take CompressedSize (Signature_Marshal signature) in
    match rlp_EncodeSealed extraDataWithSignature with
    | (_, Some err) => Panicked err
    | (extraDataBytes, None) =>
        Returned
          ({| ParentHash := ParentHash header; Number := Number header;
              Time := Time header;
              Extra := extraDataBytes;
              MixDigest := BytesToHash compressedSignature |},
           headerHash, signature)
    end.

(** Modelled from the spec: the epoch store and [verifySeal] are
    defined with the pandora engine. An epoch covers the times of
    the window [start, start + N * slotDuration); [resolve] yields an
    epoch whose window covers the header time. *)
Definition covers (info : MinimalEpochConsensusInfo) (time : Z) : Prop :=
  EpochTimeStartUnix info ≤ time
  < EpochTimeStartUnix info + validatorListLen * SlotTimeDuration.

#[global] Instance covers_dec info time : Decision (covers info time).
Proof. unfold covers. apply _. Defined.

Definition resolve (store : list MinimalEpochConsensusInfo) (headerTime : Z)
  : option MinimalEpochConsensusInfo :=
  snd <$> list_find (λ info, covers info headerTime) store.

(** Modelled from the spec: the header "with the signature-bearing
    fields blanked (the canonical pre-signature form)": the extension
    without its signature block and an empty 32-byte commitment. *)
Definition preSignatureForm (header : Header) (sealed : PandoraExtraDataSealed)
  : Header :=
  {| ParentHash := ParentHash header; Number := Number header;
     Time := Time header;
     Extra := rlp_EncodeExtra (sealedData sealed);
     MixDigest := 0%N |}.

(** Modelled from the spec: the nominal window of a slot starts
    [slot * slotDuration] after the epoch start; the header time may
    miss it by the tolerance. *)
Definition withinSlot (info : MinimalEpochConsensusInfo) (slot : N) (time : Z) : Prop :=
  let slotStart := EpochTimeStartUnix info + Z.of_N slot * SlotTimeDuration in
  slotStart - slotTolerance ≤ time < slotStart + SlotTimeDuration + slotTolerance.

#[global] Instance withinSlot_dec info slot time : Decision (withinSlot info slot time).
Proof. unfold withinSlot. apply _. Defined.

(** Modelled from the spec: [verifySeal] in epoch/slot mode, steps 1
    to 7 of the SlotSealVerifier; the error of step 6 is the one
    [TestVerifySeal] expects. [None] is the nil error. *)
Definition verifySeal (store : list MinimalEpochConsensusInfo) (header : Header)
  : option sealError :=
  match rlp_DecodeSealed (Extra header) with
  | None => Some MalformedSeal
  | Some sealed =>
      let turn := Turn (sealedData sealed) in
      if decide (validatorListLen ≤ Z.of_N turn) then Some TurnOutOfRange
      else
        match resolve store (Time header) with
        | None => Some EpochNotFound
        | Some info =>
            match ValidatorsList info !! N.to_nat turn with
            | None => Some TurnOutOfRange
            | Some signer =>
                let sealHash := SealHash (preSignatureForm header sealed) in
                let signature := BlsSignatureBytes sealed in
                if Signature_Verify signature signer sealHash then
                  if decide (withinSlot info (Slot (sealedData sealed)) (Time header))
                  then None
                  else Some StaleOrFutureSlot
                else Some (expectedErr signature header sealHash)
            end
        end
  end.
(** The header has passed the steps before the signature check:
    [sealed] is its decoded extension, the turn is in range, [info] the
    resolved epoch and [signer] the validator expected for the turn. *)
Definition reachesSignatureCheck (store : list MinimalEpochConsensusInfo)
    (header : Header) (sealed : PandoraExtraDataSealed)
    (info : MinimalEpochConsensusInfo) (signer : PublicKey) : Prop :=
  rlp_DecodeSealed (Extra header) = Some sealed ∧
  Z.of_N (Turn (sealedData sealed)) < validatorListLen ∧
  resolve store (Time header) = Some info ∧
  ValidatorsList info !! N.to_nat (Turn (sealedData sealed)) = Some signer.

(** "The error message carries the signer identity": the expected signer
    can be read off the error of a failed signature check. *)
Definition errorCarriesSigner : Prop :=
  ∃ signerOf : sealError → PublicKey,
    ∀ store header sealed info signer,
      reachesSignatureCheck store header sealed info signer →
      Signature_Verify (BlsSignatureBytes sealed) signer
        (SealHash (preSignatureForm header sealed)) = false →
      ∃ err, verifySeal store header = Some err ∧ signerOf err = signer.
End Seal.

(** What is assumed of the collaborators: a signature verifies under the
    public key of the secret key that made it and under no other, and
    the codec of the sealed extension round-trips. *)
Class BlsLaws `{Bls} : Prop := {
  verify_sign : ∀ privKey message,
    Signature_Verify (SecretKey_Sign privKey message)
      (SecretKey_PublicKey privKey) message = true;
  verify_signer : ∀ privKey pubKey message,
    Signature_Verify (SecretKey_Sign privKey message) pubKey message = true →
    pubKey = SecretKey_PublicKey privKey
}.

Class CodecLaws `{Codec} : Prop := {
  decode_encode_sealed : ∀ sealed encoded,
    rlp_EncodeSealed sealed = (encoded, None) →
    rlp_DecodeSealed encoded = Some sealed
}.

End pandora.

(** ** The filter backend of the tests *)
Module backend.
Import ethash.

Section Backend.
(** The database and what [rawdb] reads from it: the number recorded
    for a header hash (nil when there is none), and the receipts stored
    under a hash and number. [Receipt_Logs] is the field [Logs] of a
    receipt. A nil slice is the empty list. *)
Context {Db Receipt Log : Type}.
Variable ReadHeaderNumber : Db → Hash → option Z.
Variable ReadReceipts : Db → Hash → Z → list Receipt.
Variable Receipt_Logs : Receipt → list Log.

Record testBackend := mkBackend { db : Db; sections : Z }.

(** [GetReceipts] *)
Definition GetReceipts (b : testBackend) (hash : Hash)
  : list Receipt * option error :=
  match ReadHeaderNumber (db b) hash with
  | Some number => (ReadReceipts (db b) hash number, None)
  | None => ([], None)
  end.

(** The loop of [GetLogs]: [logs[i] = receipt.Logs] for the receipts
    from index [i] on. *)
Fixpoint fillLogs (i : nat) (receipts : list Receipt) (logs : list (list Log))
  : list (list Log) :=
  match receipts with
  | [] => logs
  | receipt :: rest => fillLogs (S i) rest (<[i := Receipt_Logs receipt]> logs)
  end.

(** [GetLogs] *)
Definition GetLogs (b : testBackend) (hash : Hash)
  : list (list Log) * option error :=
  match ReadHeaderNumber (db b) hash with
  | None => ([], None)
  | Some number =>
      let receipts := ReadReceipts (db b) hash number in
      let logs := replicate (length receipts) [] in
      (fillLogs 0 receipts logs, None)
  end.
End Backend.

End backend.

(** ** Instances used to run the definitions *)
Module fixtures.
Import validatorset.

(** A validator set that hands back its validators and, twice, the
    [first] flag it was called with. *)
Record recordingSet := RecordingSet { recorded : list Address }.

#[global] Instance recordingSet_ValidatorSet
  : ValidatorSet recordingSet unit unit unit unit := {|
  SignalToChange v first _ _ _ _ := (recorded v, first, first);
  FinalizeChange _ _ _ := None;
  GetValidatorsByCaller v _ := recorded v;
  PrepareBackend _ _ _ _ := None
|}.

(** Bindings at the heights 0, 100 and 500. *)
Definition threeSets : Multi recordingSet :=
  NewMulti (<[0 := RecordingSet [1%N]]>
           (<[100 := RecordingSet [2%N]]>
           (<[500 := RecordingSet [3%N]]> ∅))).

(** A single binding, at height 100. *)
Definition lateSet : Multi recordingSet :=
  NewMulti (<[100 := RecordingSet [2%N]]> ∅).

Definition headerAt (number : Z) : Header :=
  {| ParentHash := 0%N; Number := number; Time := 0; Extra := []; MixDigest := 0%N |}.

(** An API with a remote sealer whose candidate block has the header
    [header], and an API without remote sealer. *)
Definition remoteAPI (header : option Header) : ethash.API :=
  ethash.mkAPI (ethash.mkEthash (Some (ethash.mkRemote (ethash.mkBlock header)))).
Definition localAPI : ethash.API := ethash.mkAPI (ethash.mkEthash None).

(** An error of the sealer loop. *)
Definition sealerError : ethash.error := "no mining work available yet".

Definition someWork : ethash.WorkPackage := ("0x01", "0x02", "0x03", "0x04").

(** A candidate header with parent hash 7 and number 9. *)
Definition candidate : Header :=
  {| ParentHash := 7%N; Number := 9; Time := 0; Extra := []; MixDigest := 0%N |}.

(** A deployment with four validators and slots of six seconds. *)
#[global] Instance smallDeployment : pandora.Deployment := {|
  pandora.validatorListLen := 4;
  pandora.SlotTimeDuration := 6;
  pandora.slotTolerance := 0
|}.

(** A signature scheme for running the definitions: the public key is
    the secret key, and a signature is the pair of key and message. *)
#[global] Instance pairBls : pandora.Bls := {|
  pandora.PublicKey := N;
  pandora.SecretKey := N;
  pandora.Signature := N * Hash;
  pandora.SecretKey_PublicKey privKey := privKey;
  pandora.SecretKey_Sign privKey message := (privKey, message);
  pandora.Signature_Verify signature pubKey message :=
    bool_decide (signature = (pubKey, message));
  pandora.Signature_Marshal signature := [fst signature; snd signature]
|}.

Definition listDecodeSealed (b : ethash.bytes) : option pandora.PandoraExtraDataSealed :=
  match b with
  | [slot; epoch; turn; key; message] =>
      Some (pandora.mkSealed _ (pandora.mkExtra slot epoch turn) (key, message))
  | _ => None
  end.

(** A codec that writes the fields one after the other, and a hash that
    adds up what it is given. *)
#[global] Instance listCodec : pandora.Codec := {|
  pandora.rlp_EncodeExtra extraData :=
    [pandora.Slot extraData; pandora.ExtraEpoch extraData; pandora.Turn extraData];
  pandora.rlp_EncodeSealed sealed :=
    let extraData := pandora.sealedData sealed in
    ([pandora.Slot extraData; pandora.ExtraEpoch extraData; pandora.Turn extraData;
      fst (pandora.BlsSignatureBytes sealed); snd (pandora.BlsSignatureBytes sealed)],
     None);
  pandora.rlp_DecodeSealed := listDecodeSealed;
  pandora.SealHash header :=
    (Z.to_N (Number header) + Z.to_N (Time header)
     + ethash.bigEndian (Extra header))%N;
  pandora.Header_Hash header :=
    (1 + Z.to_N (Number header) + Z.to_N (Time header)
     + ethash.bigEndian (Extra header) + MixDigest header)%N;
  pandora.Hash_String hash := pretty hash;
  pandora.bytes_String b := String.concat "," (pretty <$> b);
  pandora.CompressedSize := 1
|}.

(** The same signature scheme with an empty marshalling, and a codec
    for it. *)
Definition silentBls : pandora.Bls := {|
  pandora.PublicKey := N;
  pandora.SecretKey := N;
  pandora.Signature := N * Hash;
  pandora.SecretKey_PublicKey privKey := privKey;
  pandora.SecretKey_Sign privKey message := (privKey, message);
  pandora.Signature_Verify signature pubKey message :=
    bool_decide (signature = (pubKey, message));
  pandora.Signature_Marshal _ := []
|}.

Definition silentCodec : @pandora.Codec silentBls := {|
  pandora.rlp_EncodeExtra _ := [];
  pandora.rlp_EncodeSealed _ := ([], None);
  pandora.rlp_DecodeSealed _ := None;
  pandora.SealHash _ := 0%N;
  pandora.Header_Hash _ := 0%N;
  pandora.Hash_String _ := EmptyString;
  pandora.bytes_String _ := EmptyString;
  pandora.CompressedSize := 1
|}.

(** A codec for [pairBls] whose encoding of the sealed extension fails. *)
Definition failingCodec : @pandora.Codec pairBls := {|
  pandora.rlp_EncodeExtra _ := [];
  pandora.rlp_EncodeSealed _ := ([], Some "rlp: encoding failed");
  pandora.rlp_DecodeSealed _ := None;
  pandora.SealHash _ := 0%N;
  pandora.Header_Hash _ := 0%N;
  pandora.Hash_String _ := EmptyString;
  pandora.bytes_String _ := EmptyString;
  pandora.CompressedSize := 1
|}.

(** The genesis epoch of [smallDeployment], starting at second 1000,
    with the validators 1 to 4; the same epoch with validator 5 first. *)
Definition genesisEpoch (validators : list N) : pandora.MinimalEpochConsensusInfo :=
  pandora.AssignValidators
    (pandora.AssignEpochStartFromGenesis (pandora.NewMinimalConsensusInfo 0)
       (1000 * pandora.Second))
    validators.

Definition genesisStore : list pandora.MinimalEpochConsensusInfo :=
  [genesisEpoch [1; 2; 3; 4]%N].
Definition otherStore : list pandora.MinimalEpochConsensusInfo :=
  [genesisEpoch [5; 2; 3; 4]%N].

End fixtures.
(** * Properties *)

(** ** The multiplexer *)
Section MultiProperties.
Import validatorset.
Context {V Receipts Chain Db State : Type}.
Context `{!ValidatorSet V Receipts Chain Db State}.
Implicit Types (multi : Multi V) (blockNumber setNum : Z) (setNumbers : list Z).

#[local] Instance descending_transitive : Transitive descending.
Proof. unfold descending. intros a b c ? ?. lia. Qed.

#[local] Instance descending_total : Total descending.
Proof. unfold descending. intros a b. lia. Qed.

#[local] Instance descending_antisymm : AntiSymm (=) descending.
Proof. unfold descending. intros a b ? ?. lia. Qed.

Lemma sortDescending_sorted setNumbers :
  StronglySorted descending (sortDescending setNumbers).
Proof. apply StronglySorted_merge_sort; apply _. Qed.

Lemma sortDescending_elem_of setNumbers k :
  k ∈ sortDescending setNumbers ↔ k ∈ setNumbers.
Proof. unfold sortDescending. by rewrite merge_sort_Permutation. Qed.

(** The sorted slice does not depend on the order in which the keys were
    collected, nor on the sorting algorithm. *)
Lemma sortDescending_order setNumbers sorted :
  sorted ≡ₚ setNumbers → StronglySorted descending sorted →
  sorted = sortDescending setNumbers.
Proof.
  intros Hperm Hsorted.
  apply (StronglySorted_unique descending); [done | apply sortDescending_sorted |].
  unfold sortDescending. by rewrite merge_sort_Permutation.
Qed.

(** The loop leaves [setNum] alone when no key is at or below the block. *)
Lemma selectSetNum_none blockNumber setNumbers setNum :
  Forall (λ k, blockNumber < k) setNumbers →
  selectSetNum blockNumber setNumbers setNum = setNum.
Proof.
  induction 1 as [|k rest Hk _ IH]; simpl; [done |].
  case_decide; [lia | exact IH].
Qed.

(** On a descending slice the loop stops at the greatest key at or below
    the block, when there is one. *)
Lemma selectSetNum_greatest blockNumber setNumbers setNum k :
  StronglySorted descending setNumbers →
  k ∈ setNumbers → k ≤ blockNumber →
  let h := selectSetNum blockNumber setNumbers setNum in
  h ∈ setNumbers ∧ h ≤ blockNumber ∧
  ∀ k', k' ∈ setNumbers → k' ≤ blockNumber → k' ≤ h.
Proof.
  induction 1 as [|x rest Hsorted IH Hhd]; intros Hin Hle; simpl.
  - by apply elem_of_nil in Hin.
  - case_decide as Hx.
    + split_and!; [left | done |].
      intros k' Hk' _. apply elem_of_cons in Hk' as [-> | Hk']; [lia |].
      rewrite Forall_forall in Hhd. by apply Hhd.
    + apply elem_of_cons in Hin as [-> | Hin]; [lia |].
      destruct (IH Hin Hle) as (Hh & Hhle & Hmax).
      split_and!; [by right | done |].
      intros k' Hk' Hk'le. apply elem_of_cons in Hk' as [-> | Hk']; [lia |].
      by apply Hmax.
Qed.

Lemma keys_elem_of multi k :
  k ∈ (map_to_list (sets multi)).*1 ↔ is_Some (sets multi !! k).
Proof.
  rewrite list_elem_of_fmap. split.
  - intros ([k' v] & -> & Hin). apply elem_of_map_to_list in Hin. by exists v.
  - intros [v Hv]. exists (k, v). split; [done |]. by apply elem_of_map_to_list.
Qed.

(** [correctSet] gives the same answer for every order in which Go may
    range over the map. *)
Lemma correctSetFrom_order multi keys blockNumber :
  keys ≡ₚ (map_to_list (sets multi)).*1 →
  correctSetFrom multi keys blockNumber = correctSet multi blockNumber.
Proof.
  intros Hperm. unfold correctSet, correctSetFrom.
  case_decide; [done |].
  replace (sortDescending keys)
    with (sortDescending (map_to_list (sets multi)).*1); [done |].
  symmetry. apply sortDescending_order; [| apply sortDescending_sorted].
  unfold sortDescending at 1. by rewrite merge_sort_Permutation.
Qed.

Lemma correctSet_panic_iff multi blockNumber :
  is_panic (correctSet multi blockNumber) ↔ sets multi = ∅.
Proof.
  unfold correctSet, correctSetFrom. rewrite <- map_size_empty_iff.
  case_decide; simpl; tauto.
Qed.

Lemma correctSet_returned multi blockNumber :
  sets multi ≠ ∅ →
  let setNum :=
    selectSetNum blockNumber (sortDescending (map_to_list (sets multi)).*1) 0 in
  correctSet multi blockNumber = Returned (sets multi !! setNum, setNum).
Proof.
  intros Hne. unfold correctSet, correctSetFrom.
  case_decide as Hsize; [| done]. by apply map_size_empty_iff in Hsize.
Qed.

End MultiProperties.

Section MultiClaims.
Import validatorset.
Context {V Receipts Chain Db State : Type}.
Context `{!ValidatorSet V Receipts Chain Db State}.
Implicit Types (multi : Multi V) (blockNumber : Z).

(** C2, as amended: [correctSet] panics exactly when the binding map is
    empty, and whenever some registered activation height is at or below
    the queried block number it returns the binding registered at the
    greatest such height, together with that height. *)
Theorem correctSet_greatest_at_most multi blockNumber :
  (is_panic (correctSet multi blockNumber) ↔ sets multi = ∅) ∧
  ∀ k, is_Some (sets multi !! k) → k ≤ blockNumber →
    ∃ v h, correctSet multi blockNumber = Returned (Some v, h) ∧
           sets multi !! h = Some v ∧
           greatestAtMost multi blockNumber h.
Proof.
  split; [apply correctSet_panic_iff |].
  intros k Hk Hle.
  assert (sets multi ≠ ∅) as Hne.
  { intros Hempty. rewrite Hempty, lookup_empty in Hk. by destruct Hk. }
  rewrite (correctSet_returned multi blockNumber Hne).
  set (keys := (map_to_list (sets multi)).*1).
  destruct (selectSetNum_greatest blockNumber (sortDescending keys) 0 k)
    as (Hin & Hhle & Hmax).
  - apply sortDescending_sorted.
  - by apply sortDescending_elem_of, keys_elem_of.
  - done.
  - apply sortDescending_elem_of, keys_elem_of in Hin as [v Hv].
    exists v, (selectSetNum blockNumber (sortDescending keys) 0).
    split_and!; [by rewrite Hv | done |].
    unfold greatestAtMost. split_and!; [by exists v | done |].
    intros k' Hk' Hk'le. apply Hmax; [| done].
    by apply sortDescending_elem_of, keys_elem_of.
Qed.

(** C10: a non-empty binding map without an activation height at or
    below the queried block number does not make [correctSet] panic; the
    call falls back to height 0 and returns whatever is stored under key
    0 (nil when nothing is). Only an empty map reaches the panic. *)
Theorem correctSet_fallback_to_zero multi blockNumber :
  (is_panic (correctSet multi blockNumber) → sets multi = ∅) ∧
  (sets multi ≠ ∅ →
   (∀ k, is_Some (sets multi !! k) → blockNumber < k) →
   correctSet multi blockNumber = Returned (sets multi !! 0, 0)).
Proof.
  split; [apply correctSet_panic_iff |].
  intros Hne Hall. rewrite (correctSet_returned multi blockNumber Hne).
  rewrite selectSetNum_none; [done |].
  apply Forall_forall. intros k Hk.
  by apply Hall, keys_elem_of, sortDescending_elem_of.
Qed.

(** C4: [SignalToChange] overwrites the caller's [first] with "the
    resolved activation height equals the header's number": whatever the
    hint, the resolved implementation is called with a flag that is true
    exactly when the header's number is the resolved height. *)
Theorem SignalToChange_recomputes_first multi receipts header chain chainDb
    validator setBlockNumber :
  correctSet multi (Number header) = Returned (Some validator, setBlockNumber) →
  ∃ forwarded : bool,
    (forwarded = true ↔ Number header = setBlockNumber) ∧
    ∀ first,
      Multi_SignalToChange multi first receipts header chain chainDb
      = Returned (SignalToChange validator forwarded receipts header chain chainDb).
Proof.
  intros Hset. exists (bool_decide (setBlockNumber = Number header)). split.
  - rewrite bool_decide_eq_true. split; congruence.
  - intros first. unfold Multi_SignalToChange. by rewrite Hset.
Qed.

End MultiClaims.

Section MultiExamples.
Import validatorset fixtures.

(** The selection of the testable properties: bindings at 0, 100, 500. *)
Example threeSets_selection :
  correctSet threeSets <$> [0; 99; 500; 10000]
  = [Returned (Some (RecordingSet [1%N]), 0);
     Returned (Some (RecordingSet [1%N]), 0);
     Returned (Some (RecordingSet [3%N]), 500);
     Returned (Some (RecordingSet [3%N]), 500)].
Proof. reflexivity. Qed.

Lemma correctSet_greatest_at_most_witness :
  ∃ v h, correctSet threeSets 99 = Returned (Some v, h) ∧
         sets threeSets !! h = Some v ∧
         greatestAtMost threeSets 99 h.
Proof.
  apply (proj2 (correctSet_greatest_at_most threeSets 99) 0); [| lia].
  by eexists.
Defined.

(** C2 as stated fails: with a single binding at height 100 and block
    50 there is no registered height at or below the block, the call
    does not panic, and what it returns is nil with height 0. *)
Lemma correctSet_no_height_below :
  sets lateSet ≠ ∅ ∧
  correctSet lateSet 50 = Returned (None, 0) ∧
  ¬ ∃ v h, correctSet lateSet 50 = Returned (Some v, h) ∧
           sets lateSet !! h = Some v ∧
           greatestAtMost lateSet 50 h.
Proof.
  split_and!.
  - intros Hempty. by apply (f_equal (λ m, m !! 100)) in Hempty.
  - reflexivity.
  - intros (v & h & Hret & _). discriminate Hret.
Qed.

Lemma correctSet_fallback_to_zero_witness :
  correctSet lateSet 50 = Returned (sets lateSet !! 0, 0).
Proof.
  apply (proj2 (correctSet_fallback_to_zero lateSet 50)).
  - intros Hempty. by apply (f_equal (λ m, m !! 100)) in Hempty.
  - intros k [v Hk]. unfold lateSet in Hk. simpl in Hk.
    apply lookup_insert_Some in Hk as [[<- _] | [_ Hk]]; [lia |].
    by rewrite lookup_empty in Hk.
Defined.

Lemma SignalToChange_recomputes_first_witness :
  ∃ forwarded : bool,
    (forwarded = true ↔ Number (headerAt 100) = 100) ∧
    ∀ first,
      Multi_SignalToChange threeSets first () (headerAt 100) () ()
      = Returned (SignalToChange (RecordingSet [2%N]) forwarded () (headerAt 100) () ()).
Proof.
  apply (SignalToChange_recomputes_first threeSets () (headerAt 100) () ()
           (RecordingSet [2%N]) 100).
  reflexivity.
Defined.

(** The recorded flag: true at the heights 0, 100 and 500 only, whatever
    the caller passes. *)
Example threeSets_first_flag :
  (λ n, Multi_SignalToChange threeSets false () (headerAt n) () ())
    <$> [0; 99; 100; 101; 500; 10000]
  = [Returned ([1%N], true, true); Returned ([1%N], false, false);
     Returned ([2%N], true, true); Returned ([2%N], false, false);
     Returned ([3%N], true, true); Returned ([3%N], false, false)] ∧
  (λ n, Multi_SignalToChange threeSets true () (headerAt n) () ())
    <$> [99; 100]
  = [Returned ([1%N], false, false); Returned ([2%N], true, true)].
Proof. split; reflexivity. Qed.

End MultiExamples.

(** ** The multiplexer: resolution as a function of the block number *)
Section MultiResolution.
Import validatorset.
Context {V Receipts Chain Db State : Type}.
Context `{!ValidatorSet V Receipts Chain Db State}.
Implicit Types (multi : Multi V) (blockNumber : Z).

(** The loop either falls through a slice whose keys are all above the
    block, or stops at a key of the slice at or below the block. *)
Lemma selectSetNum_cases blockNumber setNumbers setNum :
  (Forall (λ k, blockNumber < k) setNumbers ∧
   selectSetNum blockNumber setNumbers setNum = setNum) ∨
  (selectSetNum blockNumber setNumbers setNum ∈ setNumbers ∧
   selectSetNum blockNumber setNumbers setNum ≤ blockNumber).
Proof.
  induction setNumbers as [|k rest IH]; simpl.
  - left. by split.
  - case_decide as Hk.
    + right. split; [left | done].
    + destruct IH as [[Hall Heq] | [Hin Hle]].
      * left. split; [| done]. constructor; [lia | done].
      * right. split; [by right | done].
Qed.

Lemma greatestAtMost_unique multi blockNumber h h' :
  greatestAtMost multi blockNumber h → greatestAtMost multi blockNumber h' →
  h = h'.
Proof.
  intros (Hh & Hle & Hmax) (Hh' & Hle' & Hmax').
  specialize (Hmax h' Hh' Hle'). specialize (Hmax' h Hh Hle). lia.
Qed.

(** With a registered height at or below the block, the call returns
    the binding of the greatest such height. *)
Lemma correctSet_resolves multi blockNumber k :
  is_Some (sets multi !! k) → k ≤ blockNumber →
  ∃ h, correctSet multi blockNumber = Returned (sets multi !! h, h) ∧
       greatestAtMost multi blockNumber h.
Proof.
  intros Hk Hle.
  assert (sets multi ≠ ∅) as Hne.
  { intros Hempty. rewrite Hempty, lookup_empty in Hk. by destruct Hk. }
  rewrite (correctSet_returned multi blockNumber Hne).
  set (keys := (map_to_list (sets multi)).*1).
  destruct (selectSetNum_greatest blockNumber (sortDescending keys) 0 k)
    as (Hin & Hhle & Hmax).
  - apply sortDescending_sorted.
  - by apply sortDescending_elem_of, keys_elem_of.
  - done.
  - eexists. split; [done |].
    apply sortDescending_elem_of, keys_elem_of in Hin.
    split_and!; [done | done |].
    intros k' Hk' Hk'le. apply Hmax; [| done].
    by apply sortDescending_elem_of, keys_elem_of.
Qed.

Lemma correctSet_at_greatest multi blockNumber h :
  greatestAtMost multi blockNumber h →
  correctSet multi blockNumber = Returned (sets multi !! h, h).
Proof.
  intros Hgreatest. pose proof Hgreatest as (Hh & Hle & _).
  destruct (correctSet_resolves multi blockNumber h Hh Hle) as (h' & -> & Hh').
  by rewrite (greatestAtMost_unique _ _ _ _ Hgreatest Hh').
Qed.

(** X1: the answer of [correctSet] does not depend on the order in which
    the [range] over the map yields the keys: any two enumerations of
    the registered heights give the same binding and height. *)
Theorem correctSet_iteration_order multi keys1 keys2 blockNumber :
  keys1 ≡ₚ (map_to_list (sets multi)).*1 →
  keys2 ≡ₚ (map_to_list (sets multi)).*1 →
  correctSetFrom multi keys1 blockNumber = correctSetFrom multi keys2 blockNumber.
Proof.
  intros Hkeys1 Hkeys2.
  by rewrite (correctSetFrom_order _ _ _ Hkeys1), (correctSetFrom_order _ _ _ Hkeys2).
Qed.

(** X2: what [correctSet] returns is always the map entry stored under
    the returned height, and the height is either a registered height
    at or below the block, or the fallback 0 taken when every registered
    height is above the block. *)
Theorem correctSet_result multi blockNumber validator setNum :
  correctSet multi blockNumber = Returned (validator, setNum) →
  validator = sets multi !! setNum ∧
  ((is_Some (sets multi !! setNum) ∧ setNum ≤ blockNumber) ∨
   (setNum = 0 ∧ ∀ k, is_Some (sets multi !! k) → blockNumber < k)).
Proof.
  intros Hret.
  assert (sets multi ≠ ∅) as Hne.
  { intros Hempty. apply (correctSet_panic_iff multi blockNumber) in Hempty.
    by rewrite Hret in Hempty. }
  rewrite (correctSet_returned multi blockNumber Hne) in Hret.
  injection Hret as <- <-. split; [done |].
  set (keys := (map_to_list (sets multi)).*1).
  destruct (selectSetNum_cases blockNumber (sortDescending keys) 0)
    as [[Hall Heq] | [Hin Hle]].
  - right. split; [done |]. intros k Hk.
    rewrite Forall_forall in Hall.
    by apply Hall, sortDescending_elem_of, keys_elem_of.
  - left. split; [| done]. by apply keys_elem_of, sortDescending_elem_of.
Qed.

(** X3: a binding stays selected from its activation height up to the
    block before the next registered height: if [h] is the greatest
    registered height at or below a block, every block between [h] and
    that block resolves to the binding of [h] as well. *)
Theorem correctSet_constant_between multi blockNumber h blockNumber' :
  greatestAtMost multi blockNumber h →
  h ≤ blockNumber' ≤ blockNumber →
  correctSet multi blockNumber' = Returned (sets multi !! h, h).
Proof.
  intros (Hh & Hle & Hmax) [Hlow Hhigh].
  apply correctSet_at_greatest. split_and!; [done | done |].
  intros k Hk Hkle. apply Hmax; [done | lia].
Qed.

(** X4: the resolved activation height never decreases when the block
    number grows, as soon as the earlier block is covered by some
    registered height. *)
Theorem correctSet_monotone multi blockNumber1 blockNumber2 k v1 h1 v2 h2 :
  is_Some (sets multi !! k) → k ≤ blockNumber1 → blockNumber1 ≤ blockNumber2 →
  correctSet multi blockNumber1 = Returned (v1, h1) →
  correctSet multi blockNumber2 = Returned (v2, h2) →
  h1 ≤ h2.
Proof.
  intros Hk Hle Hblocks Hret1 Hret2.
  destruct (correctSet_resolves multi blockNumber1 k Hk Hle)
    as (g1 & Hg1 & (Hg1some & Hg1le & _)).
  destruct (correctSet_resolves multi blockNumber2 k Hk ltac:(lia))
    as (g2 & Hg2 & (_ & _ & Hg2max)).
  rewrite Hret1 in Hg1. rewrite Hret2 in Hg2.
  injection Hg1 as _ ->. injection Hg2 as _ ->.
  apply Hg2max; [done | lia].
Qed.

(** X5: registering one more binding at a height above a block leaves
    the resolution of that block as it was, provided the block was
    covered by a registered height before. *)
Theorem correctSet_insert_later multi blockNumber k later validator :
  is_Some (sets multi !! k) → k ≤ blockNumber → blockNumber < later →
  correctSet (NewMulti (<[later := validator]> (sets multi))) blockNumber
  = correctSet multi blockNumber.
Proof.
  intros Hk Hle Hlater.
  destruct (correctSet_resolves multi blockNumber k Hk Hle)
    as (h & -> & (Hh & Hhle & Hmax)).
  assert (h ≠ later) as Hne by lia.
  rewrite (correctSet_at_greatest (NewMulti (<[later := validator]> (sets multi)))
             blockNumber h).
  - simpl. by rewrite lookup_insert_ne.
  - split_and!; simpl.
    + by rewrite lookup_insert_ne.
    + done.
    + intros k' Hk' Hk'le. apply Hmax; [| done].
      rewrite lookup_insert_ne in Hk' by lia. done.
Qed.

(** X6: [SignalToChange] calls the binding of the greatest registered
    height at or below the header's number, and the [first] flag it
    passes on is true exactly when the header's number is itself a
    registered height. *)
Theorem SignalToChange_first_at_registered multi first receipts header chain
    chainDb k :
  is_Some (sets multi !! k) → k ≤ Number header →
  ∃ validator h,
    greatestAtMost multi (Number header) h ∧
    sets multi !! h = Some validator ∧
    Multi_SignalToChange multi first receipts header chain chainDb
    = Returned (SignalToChange validator
                  (bool_decide (is_Some (sets multi !! Number header)))
                  receipts header chain chainDb).
Proof.
  intros Hk Hle.
  destruct (correctSet_resolves multi (Number header) k Hk Hle)
    as (h & Hret & Hgreatest).
  pose proof Hgreatest as ([validator Hv] & Hhle & Hmax).
  exists validator, h. split_and!; [done | done |].
  unfold Multi_SignalToChange. rewrite Hret, Hv. simpl. do 2 f_equal.
  apply bool_decide_ext. split.
  - intros ->. by exists validator.
  - intros Hregistered. specialize (Hmax _ Hregistered ltac:(lia)). lia.
Qed.

(** X7: with a non-empty map whose registered heights are all above a
    block number that is not negative, nothing is stored under the
    fallback height 0, and every forwarding method panics on the nil
    binding instead of reaching an implementation. *)
Theorem forwarding_below_first_height multi first receipts header chain chainDb
    state :
  sets multi ≠ ∅ → 0 ≤ Number header →
  (∀ k, is_Some (sets multi !! k) → Number header < k) →
  Multi_SignalToChange multi first receipts header chain chainDb = Panicked nilPanic ∧
  Multi_FinalizeChange multi header state = Panicked nilPanic ∧
  Multi_GetValidatorsByCaller multi (Number header) = Panicked nilPanic ∧
  Multi_PrepareBackend multi header chain chainDb = Panicked nilPanic.
Proof.
  intros Hne Hnonneg Hall.
  assert (sets multi !! 0 = None) as Hzero.
  { destruct (sets multi !! 0) eqn:Hlookup; [| done].
    specialize (Hall 0 ltac:(by eexists)). lia. }
  assert (correctSet multi (Number header) = Returned (None, 0)) as Hret.
  { rewrite (correctSet_returned multi _ Hne).
    rewrite selectSetNum_none.
    - by rewrite Hzero.
    - apply Forall_forall. intros k Hk.
      by apply Hall, keys_elem_of, sortDescending_elem_of. }
  unfold Multi_SignalToChange, Multi_FinalizeChange, Multi_GetValidatorsByCaller,
    Multi_PrepareBackend.
  by rewrite Hret.
Qed.

(** X8: for a block covered by a registered height, the three plain
    forwarding methods reach the implementation bound to the greatest
    registered height at or below the block of the call, the same one
    for all three. *)
Theorem forwarding_reaches_resolved multi header chain chainDb state k :
  is_Some (sets multi !! k) → k ≤ Number header →
  ∃ validator h,
    greatestAtMost multi (Number header) h ∧
    sets multi !! h = Some validator ∧
    Multi_FinalizeChange multi header state
    = Returned (FinalizeChange validator header state) ∧
    Multi_GetValidatorsByCaller multi (Number header)
    = Returned (GetValidatorsByCaller validator (Number header)) ∧
    Multi_PrepareBackend multi header chain chainDb
    = Returned (PrepareBackend validator header chain chainDb).
Proof.
  intros Hk Hle.
  destruct (correctSet_resolves multi (Number header) k Hk Hle)
    as (h & Hret & Hgreatest).
  pose proof Hgreatest as ([validator Hv] & _).
  exists validator, h.
  unfold Multi_FinalizeChange, Multi_GetValidatorsByCaller, Multi_PrepareBackend.
  rewrite Hret, Hv. by split_and!.
Qed.

End MultiResolution.

Section MultiResolutionExamples.
Import validatorset fixtures.

Lemma correctSet_iteration_order_witness :
  correctSetFrom threeSets [100; 0; 500] 99 = correctSetFrom threeSets [500; 100; 0] 99.
Proof.
  apply (correctSet_iteration_order threeSets [100; 0; 500] [500; 100; 0] 99);
    apply (bool_decide_unpack _); vm_compute; exact I.
Defined.

Lemma correctSet_result_witness :
  Some (RecordingSet [2%N]) = sets threeSets !! 100 ∧
  ((is_Some (sets threeSets !! 100) ∧ 100 ≤ 250) ∨
   (100 = 0 ∧ ∀ k, is_Some (sets threeSets !! k) → 250 < k)).
Proof.
  apply (correctSet_result threeSets 250 (Some (RecordingSet [2%N])) 100).
  reflexivity.
Defined.

Lemma threeSets_greatest_100 : greatestAtMost threeSets 499 100.
Proof.
  split_and!; [by eexists | lia |].
  intros k [v Hk] Hle. unfold threeSets in Hk. simpl in Hk.
  repeat (apply lookup_insert_Some in Hk as [[<- _] | [_ Hk]]; [lia |]).
  by rewrite lookup_empty in Hk.
Defined.

Lemma correctSet_constant_between_witness :
  correctSet threeSets 250 = Returned (sets threeSets !! 100, 100).
Proof.
  apply (correctSet_constant_between threeSets 499 100 250).
  - exact threeSets_greatest_100.
  - lia.
Defined.

Lemma correctSet_monotone_witness : 100 ≤ 500.
Proof.
  apply (correctSet_monotone threeSets 150 700 0
           (Some (RecordingSet [2%N])) 100 (Some (RecordingSet [3%N])) 500);
    [by eexists | lia | lia | reflexivity | reflexivity].
Defined.

Lemma correctSet_insert_later_witness :
  correctSet (NewMulti (<[200 := RecordingSet [9%N]]> (sets lateSet))) 150
  = correctSet lateSet 150.
Proof.
  apply (correctSet_insert_later lateSet 150 100 200 (RecordingSet [9%N]));
    [by eexists | lia | lia].
Defined.

Lemma SignalToChange_first_at_registered_witness :
  ∃ validator h,
    greatestAtMost threeSets (Number (headerAt 100)) h ∧
    sets threeSets !! h = Some validator ∧
    Multi_SignalToChange threeSets false () (headerAt 100) () ()
    = Returned (SignalToChange validator
                  (bool_decide (is_Some (sets threeSets !! Number (headerAt 100))))
                  () (headerAt 100) () ()).
Proof.
  apply (SignalToChange_first_at_registered threeSets false () (headerAt 100) () () 0);
    [by eexists | simpl; lia].
Defined.

Lemma forwarding_below_first_height_witness :
  Multi_SignalToChange lateSet true () (headerAt 50) () () = Panicked nilPanic ∧
  Multi_FinalizeChange lateSet (headerAt 50) () = Panicked nilPanic ∧
  Multi_GetValidatorsByCaller lateSet (Number (headerAt 50)) = Panicked nilPanic ∧
  Multi_PrepareBackend lateSet (headerAt 50) () () = Panicked nilPanic.
Proof.
  apply (forwarding_below_first_height lateSet true () (headerAt 50) () () ()).
  - intros Hempty. by apply (f_equal (λ m, m !! 100)) in Hempty.
  - simpl. lia.
  - intros k [v Hk]. unfold lateSet in Hk. simpl in Hk |- *.
    apply lookup_insert_Some in Hk as [[<- _] | [_ Hk]]; [lia |].
    by rewrite lookup_empty in Hk.
Defined.

Lemma forwarding_reaches_resolved_witness :
  ∃ validator h,
    greatestAtMost threeSets (Number (headerAt 600)) h ∧
    sets threeSets !! h = Some validator ∧
    Multi_FinalizeChange threeSets (headerAt 600) ()
    = Returned (FinalizeChange validator (headerAt 600) ()) ∧
    Multi_GetValidatorsByCaller threeSets (Number (headerAt 600))
    = Returned (GetValidatorsByCaller validator (Number (headerAt 600))) ∧
    Multi_PrepareBackend threeSets (headerAt 600) () ()
    = Returned (PrepareBackend validator (headerAt 600) () ()).
Proof.
  apply (forwarding_reaches_resolved threeSets (headerAt 600) () () () 0);
    [by eexists | simpl; lia].
Defined.

(** The validators that the three bindings report across the heights. *)
Example threeSets_validators :
  Multi_GetValidatorsByCaller threeSets <$> [0; 99; 100; 499; 500; 501]
  = [Returned [1%N]; Returned [1%N]; Returned [2%N]; Returned [2%N];
     Returned [3%N]; Returned [3%N]].
Proof. reflexivity. Qed.

End MultiResolutionExamples.

(** ** The RPC API *)
Section ApiProperties.
Import ethash.

(** Case analysis on the next event of a trace in an execution [H]. *)
Ltac next_event H trace :=
  destruct trace as [|[] trace]; simpl in H; try discriminate H.

Lemma run_Return {R} (r : R) trace res :
  run (Return r) trace = Some res ↔ trace = [] ∧ res = Returned r.
Proof.
  split.
  - intros Hrun. next_event Hrun trace. by injection Hrun as <-.
  - by intros [-> ->].
Qed.

Lemma run_Panic {R} msg trace (res : outcome R) :
  run (Panic msg) trace = Some res ↔ trace = [] ∧ res = Panicked msg.
Proof.
  split.
  - intros Hrun. next_event Hrun trace. by injection Hrun as <-.
  - by intros [-> ->].
Qed.

Lemma run_SendOrExit {R} req (sent exited : call R) trace res :
  run (SendOrExit req sent exited) trace = Some res ↔
  (∃ trace', trace = Enqueued :: trace' ∧ run sent trace' = Some res) ∨
  (∃ trace', trace = ExitClosed :: trace' ∧ run exited trace' = Some res).
Proof.
  split.
  - intros Hrun. next_event Hrun trace; eauto.
  - by intros [(trace' & -> & Hrun) | (trace' & -> & Hrun)].
Qed.

Lemma run_RecvWorkOrErr {R} onWork onErr trace (res : outcome R) :
  run (RecvWorkOrErr onWork onErr) trace = Some res ↔
  (∃ w trace', trace = WorkReply w :: trace' ∧ run (onWork w) trace' = Some res) ∨
  (∃ err trace', trace = ErrReply err :: trace' ∧ run (onErr err) trace' = Some res).
Proof.
  split.
  - intros Hrun. next_event Hrun trace; eauto.
  - by intros [(w & trace' & -> & Hrun) | (err & trace' & -> & Hrun)].
Qed.

Lemma run_RecvErr {R} onErr trace (res : outcome R) :
  run (RecvErr onErr) trace = Some res ↔
  ∃ err trace', trace = ErrReply err :: trace' ∧ run (onErr err) trace' = Some res.
Proof.
  split.
  - intros Hrun. next_event Hrun trace; eauto.
  - by intros (err & trace' & -> & Hrun).
Qed.

Lemma run_RecvDone {R} (next : call R) trace res :
  run (RecvDone next) trace = Some res ↔
  ∃ trace', trace = DoneReply :: trace' ∧ run next trace' = Some res.
Proof.
  split.
  - intros Hrun. next_event Hrun trace; eauto.
  - by intros (trace' & -> & Hrun).
Qed.

(** A call waiting for [done] is not moved by the shutdown signal,
    however often it is observed. *)
Lemma feed_RecvDone_exit {R} (next : call R) n :
  feed (RecvDone next) (replicate n ExitClosed) = RecvDone next.
Proof. induction n as [|n IH]; simpl; [done | exact IH]. Qed.

(** The executions of [SubmitWork] are those of [submissionVerdict]. *)
Lemma SubmitWork_runs api nonce hash digest trace res :
  run (SubmitWork api nonce hash digest) trace = Some res ↔
  ∃ accepted, res = Returned accepted ∧ submissionVerdict api trace accepted.
Proof.
  unfold SubmitWork, submissionVerdict. destruct (remote (ethash api)).
  - rewrite run_SendOrExit. setoid_rewrite run_RecvErr.
    setoid_rewrite run_Return. naive_solver.
  - rewrite run_Return. naive_solver.
Qed.

(** So are the executions of [SubmitWorkBLS] once the signature string
    has been decoded. *)
Lemma SubmitWorkBLS_runs decode len api nonce hash hexSignatureString trace res :
  remote (ethash api) = None ∨ is_Some (decode hexSignatureString) →
  run (SubmitWorkBLS decode len api nonce hash hexSignatureString) trace = Some res ↔
  ∃ accepted, res = Returned accepted ∧ submissionVerdict api trace accepted.
Proof.
  unfold SubmitWorkBLS, submissionVerdict. intros Hok.
  destruct (remote (ethash api)).
  - destruct Hok as [? | [signatureBytes ->]]; [done |].
    rewrite run_SendOrExit. setoid_rewrite run_RecvErr.
    setoid_rewrite run_Return. naive_solver.
  - rewrite run_Return. naive_solver.
Qed.

End ApiProperties.

Section ApiClaims.
Import ethash.

(** X19: a submission through [SubmitWork], or through
    [SubmitWorkBLS] with a signature string that decodes, ends in a plain
    boolean in every execution; the boolean is true exactly when the
    sealer loop has taken the request and answered with the nil error,
    and every error the loop answers with (stale work, unknown work,
    invalid seal) gives the same [false]. *)
Theorem submission_is_boolean decode len api nonce hash digest
    hexSignatureString (submission : call bool) :
  submission = SubmitWork api nonce hash digest ∨
  (submission = SubmitWorkBLS decode len api nonce hash hexSignatureString ∧
   (remote (ethash api) = None ∨ is_Some (decode hexSignatureString))) →
  (∀ trace res,
     run submission trace = Some res →
     ∃ accepted : bool,
       res = Returned accepted ∧
       (accepted = true ↔ trace = [Enqueued; ErrReply None])) ∧
  (is_Some (remote (ethash api)) →
   ∀ err, run submission [Enqueued; ErrReply err]
          = Some (Returned (bool_decide (err = None)))).
Proof.
  intros Hsub.
  assert (∀ trace res, run submission trace = Some res ↔
            ∃ accepted, res = Returned accepted ∧
                        submissionVerdict api trace accepted) as Hruns.
  { intros trace res. destruct Hsub as [-> | [-> Hok]].
    - apply SubmitWork_runs.
    - by apply SubmitWorkBLS_runs. }
  split.
  - intros trace res (accepted & -> & Hverdict)%Hruns.
    exists accepted. split; [done |].
    unfold submissionVerdict in Hverdict.
    destruct (remote (ethash api)).
    + destruct Hverdict as [[-> ->] | (err & -> & ->)]; [done |].
      rewrite bool_decide_eq_true. split; [by intros -> | congruence].
    + destruct Hverdict as [-> ->]. done.
  - intros [r Hr] err. apply Hruns. eexists. split; [done |].
    unfold submissionVerdict. rewrite Hr. right. by exists err.
Qed.

(** C6, as amended: the executions of [GetWork] are exactly these:
    without remote sealer it fails with "not supported"; when the exit
    channel wins the enqueueing select it fails with [errEthashStopped];
    once the request is enqueued it returns what the sealer loop
    answers, the work package with a nil error or the loop's error with
    an empty package. *)
Theorem GetWork_outcomes api trace res :
  run (GetWork api) trace = Some res ↔
  (remote (ethash api) = None ∧ trace = [] ∧
   res = Returned (emptyWork, Some errNotSupported)) ∨
  (is_Some (remote (ethash api)) ∧
   ((trace = [ExitClosed] ∧ res = Returned (emptyWork, Some errEthashStopped)) ∨
    (∃ work, trace = [Enqueued; WorkReply work] ∧ res = Returned (work, None)) ∨
    (∃ err, trace = [Enqueued; ErrReply err] ∧ res = Returned (emptyWork, err)))).
Proof.
  unfold GetWork. destruct (remote (ethash api)) as [r|].
  - rewrite run_SendOrExit. setoid_rewrite run_RecvWorkOrErr.
    setoid_rewrite run_Return. split.
    + intros [(? & -> & [(w & ? & -> & -> & ->) | (err & ? & -> & -> & ->)])
             | (? & -> & -> & ->)]; right; (split; [by exists r |]); eauto.
    + intros [[? _] | [_ [[-> ->] | [(w & -> & ->) | (err & -> & ->)]]]];
        [done | right | left | left]; eexists; (split; [done |]); eauto 10.
  - rewrite run_Return. split.
    + intros [-> ->]. by left.
    + intros [(_ & -> & ->) | [[? ?] _]]; done.
Qed.

(** C3, as amended: once [GetShardingWork] has received the work
    package, with a current candidate header at hand: block number 1
    returns the package whatever the parent hashes are; a block number
    above 1 with a parent hash other than the candidate's fails with
    [errInvalidParentHash]; with a block number other than 1 and
    matching parent hashes, a candidate number other than the block
    number fails with [errInvalidBlockNumber]. The candidate's number is compared as the
    [uint64] it is read as, which is the number itself for every number
    in the [uint64] range. *)
Theorem GetShardingWork_lineage api sealer curBlockHeader parentHash blockNumber work :
  remote (ethash api) = Some sealer →
  Block_Header (currentBlock sealer) = Some curBlockHeader →
  let result :=
    run (GetShardingWork api parentHash blockNumber) [Enqueued; WorkReply work] in
  (blockNumber = 1 → result = Some (Returned (work, None))) ∧
  (1 < blockNumber → ParentHash curBlockHeader ≠ parentHash →
   result = Some (Returned (emptyWork, Some errInvalidParentHash))) ∧
  (blockNumber ≠ 1 → ParentHash curBlockHeader = parentHash →
   Uint64 (Number curBlockHeader) ≠ blockNumber →
   result = Some (Returned (emptyWork, Some errInvalidBlockNumber))) ∧
  (blockNumber ≠ 1 → ParentHash curBlockHeader = parentHash →
   0 ≤ Number curBlockHeader < 2 ^ 64 → Number curBlockHeader ≠ blockNumber →
   result = Some (Returned (emptyWork, Some errInvalidBlockNumber))).
Proof.
  intros Hremote Hheader. unfold GetShardingWork. rewrite Hremote. simpl.
  rewrite Hheader. unfold checkLineage.
  assert (∀ x, 0 ≤ x < 2 ^ 64 → Uint64 x = x) as Hu64.
  { intros x Hx. unfold Uint64. rewrite Z.abs_eq by lia. apply Z.mod_small. lia. }
  split_and!.
  - intros ->. by rewrite decide_True.
  - intros Hgt Hparent. rewrite decide_False by lia. by rewrite decide_True.
  - intros Hne Hparent Hnumber. rewrite decide_False by done.
    rewrite decide_False by (by intros ?). by rewrite decide_True.
  - intros Hne Hparent Hrange Hnumber. rewrite decide_False by done.
    rewrite decide_False by (by intros ?). rewrite Hu64 by done.
    by rewrite decide_True.
Qed.

(** C9: with block number 1, [GetShardingWork] returns the work package
    it received without any lineage check: whatever the candidate header
    is (its parent hash, its number, or no header at all) and whatever
    parent hash the caller names. *)
Theorem GetShardingWork_block_one api sealer parentHash work :
  remote (ethash api) = Some sealer →
  run (GetShardingWork api parentHash 1) [Enqueued; WorkReply work]
  = Some (Returned (work, None)).
Proof.
  intros Hremote. unfold GetShardingWork. rewrite Hremote. simpl.
  unfold checkLineage. by destruct (Block_Header (currentBlock sealer)).
Qed.

(** C5, as amended: with a remote sealer, [SubmitHashRate] has two
    executions: the exit channel wins the enqueueing select and the call
    returns false, or the request is enqueued and the call returns true
    once the acknowledgement has arrived on [done], not before. Only the
    enqueueing wait has a case for the shutdown signal: the call that
    waits for the acknowledgement is not moved by it and stays blocked. *)
Theorem SubmitHashRate_waits api sealer rate id :
  remote (ethash api) = Some sealer →
  (∀ trace res,
     run (SubmitHashRate api rate id) trace = Some res ↔
     (trace = [ExitClosed] ∧ res = Returned false) ∨
     (trace = [Enqueued; DoneReply] ∧ res = Returned true)) ∧
  racesShutdown (SubmitHashRate api rate id) ∧
  (∀ n, finished (feed (SubmitHashRate api rate id)
                    (Enqueued :: replicate n ExitClosed)) = None).
Proof.
  intros Hremote. unfold SubmitHashRate. rewrite Hremote. split_and!.
  - intros trace res. rewrite run_SendOrExit. setoid_rewrite run_RecvDone.
    setoid_rewrite run_Return. naive_solver.
  - by eexists.
  - intros n. simpl. by rewrite feed_RecvDone_exit.
Qed.

End ApiClaims.

Section ApiExamples.
Import ethash fixtures.

Lemma submission_is_boolean_witness :
  (∀ trace res,
     run (SubmitWorkBLS hexutil.Decode 96 (remoteAPI None) 0%N 5%N "0x00ff") trace
     = Some res →
     ∃ accepted : bool,
       res = Returned accepted ∧
       (accepted = true ↔ trace = [Enqueued; ErrReply None])) ∧
  (is_Some (remote (ethash (remoteAPI None))) →
   ∀ err,
     run (SubmitWorkBLS hexutil.Decode 96 (remoteAPI None) 0%N 5%N "0x00ff")
       [Enqueued; ErrReply err]
     = Some (Returned (bool_decide (err = None)))).
Proof.
  apply (submission_is_boolean hexutil.Decode 96 (remoteAPI None) 0%N 5%N 0%N "0x00ff").
  right. split; [reflexivity |]. right. vm_compute. by eexists.
Defined.

(** C1: the code against the claim at a signature string that is not
    hex. With a remote sealer configured [SubmitWorkBLS] panics in
    [hexutil.MustDecode] and no execution of the call returns a boolean;
    the same string gives false without remote sealer, and an invalid
    seal reported by the sealer loop gives false through [SubmitWork]. *)
Lemma SubmitWorkBLS_malformed_hex_panics :
  run (SubmitWorkBLS hexutil.Decode 96 (remoteAPI None) 0%N 5%N "zz") []
  = Some (Panicked "hexutil.MustDecode") ∧
  (¬ ∃ trace (accepted : bool),
       run (SubmitWorkBLS hexutil.Decode 96 (remoteAPI None) 0%N 5%N "zz") trace
       = Some (Returned accepted)) ∧
  run (SubmitWorkBLS hexutil.Decode 96 localAPI 0%N 5%N "zz") []
  = Some (Returned false) ∧
  run (SubmitWork (remoteAPI None) 0%N 5%N 6%N)
    [Enqueued; ErrReply (Some sealerError)]
  = Some (Returned false).
Proof.
  split_and!; [reflexivity | | reflexivity | reflexivity].
  intros (trace & accepted & Hrun). by destruct trace.
Qed.

(** The submissions of the two endpoints that reach the sealer loop. *)
Example SubmitWorkBLS_offers :
  offered (SubmitWorkBLS hexutil.Decode 4 (remoteAPI None) 0%N 5%N "0x0102")
  = Some (mineResult 0%N (BytesToHash [1; 2; 0; 0]%N) 5%N (Some [1; 2; 0; 0]%N)) ∧
  offered (SubmitWork (remoteAPI None) 0%N 5%N 6%N)
  = Some (mineResult 0%N 6%N 5%N None).
Proof. split; reflexivity. Qed.

(** C6 as stated fails: the request is enqueued, the sealer loop answers
    with an error on [errc], and [GetWork] returns that error: neither
    "not supported", nor [errEthashStopped], nor a work package. *)
Lemma GetWork_sealer_error :
  run (GetWork (remoteAPI None)) [Enqueued; ErrReply (Some sealerError)]
  = Some (Returned (emptyWork, Some sealerError)) ∧
  ¬ ((emptyWork, Some sealerError) = (emptyWork, Some errNotSupported) ∨
     (emptyWork, Some sealerError) = (emptyWork, Some errEthashStopped) ∨
     ∃ work : WorkPackage, (emptyWork, Some sealerError) = (work, None)).
Proof.
  split; [reflexivity |].
  intros [Heq | [Heq | [work Heq]]]; discriminate Heq.
Qed.

(** C3 as stated fails: with block number 1, a parent hash that
    matches the candidate's and a candidate number 9, the call returns
    the work package; the number check is not reached and the call does
    not fail with [errInvalidBlockNumber]. *)
Lemma GetShardingWork_block_one_skips_number :
  ParentHash candidate = 7%N ∧ Number candidate ≠ 1 ∧
  run (GetShardingWork (remoteAPI (Some candidate)) 7%N 1)
    [Enqueued; WorkReply someWork]
  = Some (Returned (someWork, None)) ∧
  run (GetShardingWork (remoteAPI (Some candidate)) 7%N 1)
    [Enqueued; WorkReply someWork]
  ≠ Some (Returned (emptyWork, Some errInvalidBlockNumber)).
Proof. split_and!; [reflexivity | discriminate | reflexivity | discriminate]. Qed.

Lemma GetShardingWork_lineage_witness :
  let result :=
    run (GetShardingWork (remoteAPI (Some candidate)) 8%N 9)
      [Enqueued; WorkReply someWork] in
  (9 = 1 → result = Some (Returned (someWork, None))) ∧
  (1 < 9 → ParentHash candidate ≠ 8%N →
   result = Some (Returned (emptyWork, Some errInvalidParentHash))) ∧
  (9 ≠ 1 → ParentHash candidate = 8%N → Uint64 (Number candidate) ≠ 9 →
   result = Some (Returned (emptyWork, Some errInvalidBlockNumber))) ∧
  (9 ≠ 1 → ParentHash candidate = 8%N →
   0 ≤ Number candidate < 2 ^ 64 → Number candidate ≠ 9 →
   result = Some (Returned (emptyWork, Some errInvalidBlockNumber))).
Proof.
  apply (GetShardingWork_lineage (remoteAPI (Some candidate))
           (mkRemote (mkBlock (Some candidate))) candidate 8%N 9 someWork);
    reflexivity.
Defined.

(** The three outcomes of the lineage check on the candidate with parent
    hash 7 and number 9, and the exception for block number 1. *)
Example GetShardingWork_cases :
  (λ '(parentHash, blockNumber),
     run (GetShardingWork (remoteAPI (Some candidate)) parentHash blockNumber)
       [Enqueued; WorkReply someWork])
    <$> [(7%N, 9); (8%N, 9); (7%N, 10); (8%N, 1); (8%N, 0)]
  = [Some (Returned (someWork, None));
     Some (Returned (emptyWork, Some errInvalidParentHash));
     Some (Returned (emptyWork, Some errInvalidBlockNumber));
     Some (Returned (someWork, None));
     Some (Returned (emptyWork, Some errInvalidParentHash))].
Proof. reflexivity. Qed.

Lemma GetShardingWork_block_one_witness :
  run (GetShardingWork (remoteAPI (Some candidate)) 8%N 1)
    [Enqueued; WorkReply someWork]
  = Some (Returned (someWork, None)).
Proof.
  apply (GetShardingWork_block_one (remoteAPI (Some candidate))
           (mkRemote (mkBlock (Some candidate))) 8%N someWork).
  reflexivity.
Defined.

Lemma SubmitHashRate_waits_witness :
  (∀ trace res,
     run (SubmitHashRate (remoteAPI None) 5 7%N) trace = Some res ↔
     (trace = [ExitClosed] ∧ res = Returned false) ∨
     (trace = [Enqueued; DoneReply] ∧ res = Returned true)) ∧
  racesShutdown (SubmitHashRate (remoteAPI None) 5 7%N) ∧
  (∀ n, finished (feed (SubmitHashRate (remoteAPI None) 5 7%N)
                    (Enqueued :: replicate n ExitClosed)) = None).
Proof.
  apply (SubmitHashRate_waits (remoteAPI None) (mkRemote (mkBlock None)) 5 7%N).
  reflexivity.
Defined.

(** C5 as stated fails: after the request has been enqueued the call
    waits on [done] alone; the shutdown signal is no case of that wait,
    so the call neither fails nor returns, and where shutdown does win,
    in the enqueueing select, the call returns the boolean false. *)
Lemma SubmitHashRate_ack_wait_ignores_exit :
  let waiting := feed (SubmitHashRate (remoteAPI None) 5 7%N) [Enqueued] in
  ¬ racesShutdown waiting ∧
  finished (feed waiting [ExitClosed]) = None ∧
  run (SubmitHashRate (remoteAPI None) 5 7%N) [ExitClosed] = Some (Returned false).
Proof.
  split_and!; [| reflexivity | reflexivity].
  intros [c Hstep]. discriminate Hstep.
Qed.

End ApiExamples.

(** ** The RPC API: all executions *)
Section ApiExecutions.
Import ethash.

Lemma GetWork_runs api trace res :
  run (GetWork api) trace = Some res ↔
  match remote (ethash api) with
  | None => trace = [] ∧ res = Returned (emptyWork, Some errNotSupported)
  | Some _ =>
      (trace = [ExitClosed] ∧ res = Returned (emptyWork, Some errEthashStopped)) ∨
      (∃ work, trace = [Enqueued; WorkReply work] ∧ res = Returned (work, None)) ∨
      (∃ err, trace = [Enqueued; ErrReply err] ∧ res = Returned (emptyWork, err))
  end.
Proof.
  unfold GetWork. destruct (remote (ethash api)).
  - rewrite run_SendOrExit. setoid_rewrite run_RecvWorkOrErr.
    setoid_rewrite run_Return. naive_solver.
  - apply run_Return.
Qed.

Lemma GetShardingWork_runs api parentHash blockNumber trace res :
  run (GetShardingWork api parentHash blockNumber) trace = Some res ↔
  match remote (ethash api) with
  | None => trace = [] ∧ res = Returned (emptyWork, Some errNotSupported)
  | Some sealer =>
      (trace = [ExitClosed] ∧ res = Returned (emptyWork, Some errEthashStopped)) ∨
      (∃ work, trace = [Enqueued; WorkReply work] ∧
               res = Returned (checkLineage (Block_Header (currentBlock sealer))
                                 parentHash blockNumber work)) ∨
      (∃ err, trace = [Enqueued; ErrReply err] ∧ res = Returned (emptyWork, err))
  end.
Proof.
  unfold GetShardingWork. destruct (remote (ethash api)).
  - rewrite run_SendOrExit. setoid_rewrite run_RecvWorkOrErr.
    setoid_rewrite run_Return. naive_solver.
  - apply run_Return.
Qed.

Lemma SubmitHashRate_runs api rate id trace res :
  run (SubmitHashRate api rate id) trace = Some res ↔
  match remote (ethash api) with
  | None => trace = [] ∧ res = Returned false
  | Some _ =>
      (trace = [ExitClosed] ∧ res = Returned false) ∨
      (trace = [Enqueued; DoneReply] ∧ res = Returned true)
  end.
Proof.
  unfold SubmitHashRate. destruct (remote (ethash api)).
  - rewrite run_SendOrExit. setoid_rewrite run_RecvDone.
    setoid_rewrite run_Return. naive_solver.
  - apply run_Return.
Qed.

(** The lineage check either passes the work on or fails with one of
    its two errors and the empty package. *)
Lemma checkLineage_cases curBlockHeader parentHash blockNumber work :
  checkLineage curBlockHeader parentHash blockNumber work = (work, None) ∨
  checkLineage curBlockHeader parentHash blockNumber work
  = (emptyWork, Some errInvalidParentHash) ∨
  checkLineage curBlockHeader parentHash blockNumber work
  = (emptyWork, Some errInvalidBlockNumber).
Proof.
  unfold checkLineage. destruct curBlockHeader; [| by left].
  repeat case_decide; auto.
Qed.

(** X9: the executions of [GetShardingWork] are exactly these: without
    remote sealer it fails with "not supported" at once; when the exit
    channel wins the enqueueing select it fails with
    [errEthashStopped]; when the sealer loop answers with an error that
    error is returned with an empty package; when it answers with a
    work package the result is that of the lineage check on the current
    candidate header. *)
Theorem GetShardingWork_outcomes api parentHash blockNumber trace res :
  run (GetShardingWork api parentHash blockNumber) trace = Some res ↔
  (remote (ethash api) = None ∧ trace = [] ∧
   res = Returned (emptyWork, Some errNotSupported)) ∨
  (∃ sealer, remote (ethash api) = Some sealer ∧
   ((trace = [ExitClosed] ∧ res = Returned (emptyWork, Some errEthashStopped)) ∨
    (∃ work, trace = [Enqueued; WorkReply work] ∧
             res = Returned (checkLineage (Block_Header (currentBlock sealer))
                               parentHash blockNumber work)) ∨
    (∃ err, trace = [Enqueued; ErrReply err] ∧ res = Returned (emptyWork, err)))).
Proof.
  rewrite GetShardingWork_runs. destruct (remote (ethash api)) as [sealer|].
  - split.
    + intros Hcases. right. by exists sealer.
    + intros [[? _] | (sealer' & [= <-] & Hcases)]; done.
  - split.
    + intros [-> ->]. by left.
    + intros [(_ & -> & ->) | (sealer & ? & _)]; done.
Qed.

(** X10: the work package that the sealer loop delivered is handed to
    the caller exactly when the current candidate has no header, or the
    block number is 1, or the candidate's parent hash is the supplied
    one and the candidate's number, read as [uint64], is the supplied
    block number. When a header is there, the block number is not 1 and
    the parent hashes differ, the error is the one of the parent hash,
    whatever the numbers are. *)
Theorem GetShardingWork_accepts api sealer parentHash blockNumber work :
  remote (ethash api) = Some sealer →
  let result :=
    run (GetShardingWork api parentHash blockNumber) [Enqueued; WorkReply work] in
  (result = Some (Returned (work, None)) ↔
   match Block_Header (currentBlock sealer) with
   | None => True
   | Some curBlockHeader =>
       blockNumber = 1 ∨
       (ParentHash curBlockHeader = parentHash ∧
        Uint64 (Number curBlockHeader) = blockNumber)
   end) ∧
  (∀ curBlockHeader,
     Block_Header (currentBlock sealer) = Some curBlockHeader →
     blockNumber ≠ 1 → ParentHash curBlockHeader ≠ parentHash →
     result = Some (Returned (emptyWork, Some errInvalidParentHash))).
Proof.
  intros Hremote. unfold GetShardingWork. rewrite Hremote. simpl.
  unfold checkLineage. split.
  - destruct (Block_Header (currentBlock sealer)); [| done].
    repeat case_decide; split; try naive_solver.
  - intros curBlockHeader -> Hne Hparent.
    rewrite decide_False by done. by rewrite decide_True.
Qed.

(** X11: [GetShardingWork] only ever narrows [GetWork]: on every
    execution it returns what [GetWork] returns on the same events,
    except that a delivered work package may be replaced by one of the
    two lineage errors with an empty package. *)
Theorem GetShardingWork_narrows_GetWork api parentHash blockNumber trace res :
  run (GetShardingWork api parentHash blockNumber) trace = Some res →
  ∃ res',
    run (GetWork api) trace = Some res' ∧
    (res = res' ∨
     ∃ work, res' = Returned (work, None) ∧
             (res = Returned (emptyWork, Some errInvalidParentHash) ∨
              res = Returned (emptyWork, Some errInvalidBlockNumber))).
Proof.
  rewrite GetShardingWork_runs. setoid_rewrite GetWork_runs.
  destruct (remote (ethash api)) as [sealer|].
  - intros [[-> ->] | [(work & -> & ->) | (err & -> & ->)]].
    + eexists. split; [by left | by left].
    + exists (Returned (work, None)). split; [right; left; by exists work |].
      destruct (checkLineage_cases (Block_Header (currentBlock sealer))
                  parentHash blockNumber work) as [-> | [-> | ->]];
        [by left | right; exists work; auto ..].
    + eexists. split; [right; right; by exists err | by left].
  - intros [-> ->]. eexists. split; [done | by left].
Qed.

(** X12: neither [GetWork] nor [GetShardingWork] ever returns a work
    package together with an error: whenever the error of a result is
    not nil, the package is the empty one. *)
Theorem work_errors_carry_no_package api parentHash blockNumber trace work err :
  run (GetWork api) trace = Some (Returned (work, Some err)) ∨
  run (GetShardingWork api parentHash blockNumber) trace
  = Some (Returned (work, Some err)) →
  work = emptyWork.
Proof.
  rewrite GetWork_runs, GetShardingWork_runs.
  destruct (remote (ethash api)) as [sealer|].
  - intros [[[_ [= -> _]] | [(w & _ & [= _ ?]) | (e & _ & [= -> _])]]
           | [[_ [= -> _]] | [(w & _ & Hres) | (e & _ & [= -> _])]]];
      try done.
    injection Hres as Hres.
    destruct (checkLineage_cases (Block_Header (currentBlock sealer))
                parentHash blockNumber w) as [Hc | [Hc | Hc]];
      rewrite Hc in Hres; by injection Hres.
  - intros [[_ [= -> _]] | [_ [= -> _]]]; done.
Qed.

(** X13: [GetWork], [GetShardingWork], [SubmitWork] and
    [SubmitHashRate] never panic, and none of them takes part in more
    than two communications: every complete execution returns after at
    most two events. *)
Theorem calls_return_within_two_events api parentHash blockNumber nonce hash
    digest rate id trace :
  (∀ res, run (GetWork api) trace = Some res →
          (length trace ≤ 2)%nat ∧ ¬ is_panic res) ∧
  (∀ res, run (GetShardingWork api parentHash blockNumber) trace = Some res →
          (length trace ≤ 2)%nat ∧ ¬ is_panic res) ∧
  (∀ res, run (SubmitWork api nonce hash digest) trace = Some res →
          (length trace ≤ 2)%nat ∧ ¬ is_panic res) ∧
  (∀ res, run (SubmitHashRate api rate id) trace = Some res →
          (length trace ≤ 2)%nat ∧ ¬ is_panic res).
Proof.
  split_and!; intros res.
  - rewrite GetWork_runs. destruct (remote (ethash api)); simpl.
    + intros [[-> ->] | [(? & -> & ->) | (? & -> & ->)]]; simpl; auto.
    + intros [-> ->]; simpl; auto.
  - rewrite GetShardingWork_runs. destruct (remote (ethash api)); simpl.
    + intros [[-> ->] | [(? & -> & ->) | (? & -> & ->)]]; simpl; auto.
    + intros [-> ->]; simpl; auto.
  - rewrite SubmitWork_runs. unfold submissionVerdict.
    destruct (remote (ethash api)); simpl.
    + intros (? & -> & [[-> _] | (? & -> & _)]); simpl; auto.
    + intros (? & -> & -> & _); simpl; auto.
  - rewrite SubmitHashRate_runs. destruct (remote (ethash api)); simpl.
    + intros [[-> ->] | [-> ->]]; simpl; auto.
    + intros [-> ->]; simpl; auto.
Qed.

(** X14: [SubmitWorkBLS] panics exactly when a remote sealer is
    configured and the signature string does not decode; the panic
    happens before anything is offered to the sealer loop. Without
    remote sealer even an undecodable string gives a plain false. *)
Theorem SubmitWorkBLS_panics_iff decode len api nonce hash hexSignatureString :
  ((∃ trace res,
      run (SubmitWorkBLS decode len api nonce hash hexSignatureString) trace
      = Some res ∧ is_panic res) ↔
   is_Some (remote (ethash api)) ∧ decode hexSignatureString = None) ∧
  (decode hexSignatureString = None →
   offered (SubmitWorkBLS decode len api nonce hash hexSignatureString) = None) ∧
  (remote (ethash api) = None →
   run (SubmitWorkBLS decode len api nonce hash hexSignatureString) []
   = Some (Returned false)).
Proof.
  split_and!.
  - split.
    + intros (trace & res & Hrun & Hpanic).
      destruct (decide (remote (ethash api) = None ∨
                        is_Some (decode hexSignatureString))) as [Hok | Hbad].
      * apply (SubmitWorkBLS_runs decode len api nonce hash _ trace res Hok) in Hrun
          as (accepted & -> & _). done.
      * split.
        -- destruct (remote (ethash api)); [by eexists | tauto].
        -- destruct (decode hexSignatureString); [| done].
           exfalso. apply Hbad. right. by eexists.
    + intros [[sealer Hremote] Hdecode]. exists [], (Panicked "hexutil.MustDecode").
      unfold SubmitWorkBLS. rewrite Hremote, Hdecode. by split.
  - intros Hdecode. unfold SubmitWorkBLS. rewrite Hdecode.
    by destruct (remote (ethash api)).
  - intros Hremote. unfold SubmitWorkBLS. by rewrite Hremote.
Qed.

(** X15: the seal that [SubmitWorkBLS] offers to the sealer loop always
    has the length of the signature array: it starts with the decoded
    bytes, a longer input is cut off, a shorter one is filled up with
    zero bytes, and an input of exactly that length is passed on as it
    is. The mix digest is made of the first 32 bytes of the seal. *)
Theorem SubmitWorkBLS_seal decode len api sealer nonce hash hexSignatureString
    signatureBytes :
  remote (ethash api) = Some sealer →
  decode hexSignatureString = Some signatureBytes →
  ∃ seal,
    offered (SubmitWorkBLS decode len api nonce hash hexSignatureString)
    = Some (mineResult nonce (BytesToHash (take 32 seal)) hash (Some seal)) ∧
    length seal = len ∧
    take (length signatureBytes) seal = take len signatureBytes ∧
    drop (length signatureBytes) seal
    = replicate (len - length signatureBytes) 0%N ∧
    (length signatureBytes = len → seal = signatureBytes).
Proof.
  intros Hremote Hdecode. exists (copyIntoSignature len signatureBytes).
  unfold SubmitWorkBLS. rewrite Hremote, Hdecode. unfold copyIntoSignature.
  split_and!.
  - done.
  - rewrite length_take, length_app, length_replicate. lia.
  - rewrite take_take, Nat.min_comm, <- take_take.
    by rewrite take_app_length.
  - rewrite skipn_firstn_comm, drop_app_length.
    rewrite take_replicate. f_equal. lia.
  - intros <-. by rewrite take_app_length.
Qed.

End ApiExecutions.

Section ApiExecutionsExamples.
Import ethash fixtures.

Lemma GetShardingWork_accepts_witness :
  let result :=
    run (GetShardingWork (remoteAPI (Some candidate)) 7%N 9)
      [Enqueued; WorkReply someWork] in
  (result = Some (Returned (someWork, None)) ↔
   9 = 1 ∨ (ParentHash candidate = 7%N ∧ Uint64 (Number candidate) = 9)) ∧
  (∀ curBlockHeader,
     Some candidate = Some curBlockHeader →
     9 ≠ 1 → ParentHash curBlockHeader ≠ 7%N →
     result = Some (Returned (emptyWork, Some errInvalidParentHash))).
Proof.
  apply (GetShardingWork_accepts (remoteAPI (Some candidate))
           (mkRemote (mkBlock (Some candidate))) 7%N 9 someWork).
  reflexivity.
Defined.

(** Without a candidate header every lineage is accepted. *)
Example GetShardingWork_without_header :
  run (GetShardingWork (remoteAPI None) 8%N 12) [Enqueued; WorkReply someWork]
  = Some (Returned (someWork, None)).
Proof. reflexivity. Qed.

Lemma GetShardingWork_narrows_GetWork_witness :
  ∃ res',
    run (GetWork (remoteAPI (Some candidate))) [Enqueued; WorkReply someWork]
    = Some res' ∧
    (Returned (emptyWork, Some errInvalidParentHash) = res' ∨
     ∃ work, res' = Returned (work, None) ∧
             (Returned (emptyWork, Some errInvalidParentHash)
              = Returned (emptyWork, Some errInvalidParentHash) ∨
              Returned (emptyWork, Some errInvalidParentHash)
              = Returned (emptyWork, Some errInvalidBlockNumber))).
Proof.
  apply (GetShardingWork_narrows_GetWork (remoteAPI (Some candidate)) 8%N 9
           [Enqueued; WorkReply someWork]).
  reflexivity.
Defined.

Lemma work_errors_carry_no_package_witness :
  (EmptyString, EmptyString, EmptyString, EmptyString) = emptyWork.
Proof.
  apply (work_errors_carry_no_package (remoteAPI (Some candidate)) 8%N 9
           [Enqueued; WorkReply someWork]
           (EmptyString, EmptyString, EmptyString, EmptyString)
           errInvalidParentHash).
  right. reflexivity.
Defined.

Lemma calls_return_within_two_events_witness :
  (length [Enqueued; DoneReply] ≤ 2)%nat ∧ ¬ is_panic (Returned true).
Proof.
  apply (proj2 (proj2 (proj2
           (calls_return_within_two_events (remoteAPI None) 0%N 0 0%N 0%N 0%N 5 7%N
              [Enqueued; DoneReply])))).
  reflexivity.
Defined.

Lemma SubmitWorkBLS_panics_iff_witness :
  run (SubmitWorkBLS hexutil.Decode 96 localAPI 0%N 5%N "zz") []
  = Some (Returned false).
Proof.
  apply (proj2 (proj2 (SubmitWorkBLS_panics_iff hexutil.Decode 96 localAPI 0%N 5%N "zz"))).
  reflexivity.
Defined.

Lemma SubmitWorkBLS_seal_witness :
  ∃ seal,
    offered (SubmitWorkBLS hexutil.Decode 4 (remoteAPI None) 0%N 5%N "0x010203040506")
    = Some (mineResult 0%N (BytesToHash (take 32 seal)) 5%N (Some seal)) ∧
    length seal = 4%nat ∧
    take (length [1; 2; 3; 4; 5; 6]%N) seal = take 4 [1; 2; 3; 4; 5; 6]%N ∧
    drop (length [1; 2; 3; 4; 5; 6]%N) seal
    = replicate (4 - length [1; 2; 3; 4; 5; 6]%N) 0%N ∧
    (length [1; 2; 3; 4; 5; 6]%N = 4%nat → seal = [1; 2; 3; 4; 5; 6]%N).
Proof.
  apply (SubmitWorkBLS_seal hexutil.Decode 4 (remoteAPI None)
           (mkRemote (mkBlock None)) 0%N 5%N "0x010203040506" [1; 2; 3; 4; 5; 6]%N);
    reflexivity.
Defined.

(** Seals of a four-byte signature array: cut off, filled up, kept. *)
Example copyIntoSignature_cases :
  copyIntoSignature 4 <$> [[1; 2; 3; 4; 5; 6]; [1; 2]; [1; 2; 3; 4]; []]%N
  = [[1; 2; 3; 4]; [1; 2; 0; 0]; [1; 2; 3; 4]; [0; 0; 0; 0]]%N.
Proof. reflexivity. Qed.

End ApiExecutionsExamples.

(** ** Epoch starts *)
Section EpochProperties.
Import pandora.
Context `{Deployment} `{Bls}.

Lemma epochStartFromGenesis_closed genesisTime epoch :
  epochStartFromGenesis genesisTime epoch
  = genesisTime + Z.of_N epoch * epochWidth.
Proof.
  unfold epochStartFromGenesis, Time_Add.
  induction epoch as [|epoch IH] using N.peano_ind; [simpl; lia |].
  rewrite N.iter_succ, IH. lia.
Qed.

Lemma wrapInt64_small x : - 2 ^ 63 ≤ x < 2 ^ 63 → wrapInt64 x = x.
Proof. intros Hx. unfold wrapInt64. rewrite Z.mod_small; lia. Qed.

(** In the iterations that the test runs, and as long as the product of
    durations stays within [int64], the assertion of
    [TestMinimalEpochConsensusInfo_AssignEpochStartFromGenesis] holds of
    the modelled assignment. *)
Lemma epochStartAssertion_holds genesisTime i :
  0 ≤ SlotTimeDuration → 0 < validatorListLen →
  SlotTimeDuration * Second * maxIterations * validatorListLen < 2 ^ 63 →
  0 ≤ i < maxIterations →
  epochStartAssertion genesisTime i.
Proof.
  intros Hslot Hlen Hbound Hi.
  unfold epochStartAssertion, expectedEpochTime, Duration_mul. simpl.
  rewrite epochStartFromGenesis_closed, Z2N.id by lia.
  unfold epochWidth, Time_Add.
  change maxIterations with 5 in *.
  set (slot := SlotTimeDuration * Second) in *.
  assert (0 ≤ slot) as Hslot0 by (unfold slot, Second; lia).
  assert (slot * i ≤ slot * 5) as Hi5 by nia.
  assert (slot * 5 ≤ slot * 5 * validatorListLen) as Hlen5 by nia.
  assert (slot * i * validatorListLen ≤ slot * 5 * validatorListLen) as Hall by nia.
  rewrite (wrapInt64_small slot) by lia.
  rewrite (wrapInt64_small (slot * i)) by lia.
  rewrite wrapInt64_small by nia.
  f_equal. unfold slot. lia.
Qed.

(** C7: the epoch start that [AssignEpochStartFromGenesis] computes for
    epoch [i] and genesis time [G] is [G] plus [i] times the epoch width,
    the validator-set size times the slot duration; epoch 0 starts at
    the genesis time; a later epoch starts at least one epoch width
    after an earlier one, so the starts increase strictly with the
    epoch index. *)
Theorem AssignEpochStartFromGenesis_start genesisTime :
  0 < validatorListLen → 0 < SlotTimeDuration →
  let start i :=
    EpochTimeStart
      (AssignEpochStartFromGenesis (NewMinimalConsensusInfo i) genesisTime) in
  (∀ i, start i
        = genesisTime + Z.of_N i * (validatorListLen * (SlotTimeDuration * Second))) ∧
  start 0%N = genesisTime ∧
  (∀ i j, (i < j)%N →
          start i + validatorListLen * (SlotTimeDuration * Second) ≤ start j ∧
          start i < start j).
Proof.
  intros Hlen Hslot start.
  assert (∀ i, start i = genesisTime + Z.of_N i * epochWidth) as Hstart.
  { intros i. unfold start. simpl. apply epochStartFromGenesis_closed. }
  assert (0 < epochWidth) as Hwidth.
  { unfold epochWidth, Second. lia. }
  fold epochWidth. split_and!.
  - exact Hstart.
  - rewrite Hstart. lia.
  - intros i j Hij. rewrite !Hstart. nia.
Qed.

End EpochProperties.

(** ** Seal verification *)
Section SealProperties.
Import pandora.
Context `{Deployment} `{Codec}.
Implicit Types (store : list MinimalEpochConsensusInfo) (header : Header).

(** The outcome of [verifySeal] on a header that reaches the signature
    check. *)
Lemma verifySeal_at_signature_check store header sealed info signer :
  reachesSignatureCheck store header sealed info signer →
  verifySeal store header =
    let sealHash := SealHash (preSignatureForm header sealed) in
    if Signature_Verify (BlsSignatureBytes sealed) signer sealHash then
      if decide (withinSlot info (Slot (sealedData sealed)) (Time header))
      then None
      else Some StaleOrFutureSlot
    else Some (expectedErr (BlsSignatureBytes sealed) header sealHash).
Proof.
  intros (Hdecode & Hturn & Hresolve & Hsigner). unfold verifySeal.
  rewrite Hdecode. rewrite decide_False by lia.
  by rewrite Hresolve, Hsigner.
Qed.

(** What [generatePandoraSealedHeaderByKey] returns: the sealed header
    decodes to the extension it was given with the signature of the key
    over the returned hash, and that hash is the seal-hash of the
    header's pre-signature form. *)
Lemma generatePandoraSealedHeaderByKey_returned `{!CodecLaws}
    privKey headerNumber headerTime extraData header headerHash blsSignature :
  generatePandoraSealedHeaderByKey privKey headerNumber headerTime extraData
  = Returned (header, headerHash, blsSignature) →
  let sealed := FromExtraDataAndSignature extraData blsSignature in
  rlp_DecodeSealed (Extra header) = Some sealed ∧
  blsSignature = SecretKey_Sign privKey headerHash ∧
  SealHash (preSignatureForm header sealed) = headerHash.
Proof.
  unfold generatePandoraSealedHeaderByKey. intros Hgen.
  destruct (negb _); [discriminate Hgen |].
  case_decide; [discriminate Hgen |].
  destruct (rlp_EncodeSealed _) as [encoded [err|]] eqn:Hencode;
    [discriminate Hgen |].
  injection Hgen as <- <- <-. simpl.
  split_and!; [by apply decode_encode_sealed | reflexivity | reflexivity].
Qed.

(** C8, as amended: when a header reaches the signature check and its
    embedded signature does not verify under the expected signer's
    public key and the seal-hash, [verifySeal] fails with the invalid
    signature error whose message is made of the signature, the header
    hash and the seal-hash. A header sealed by
    [generatePandoraSealedHeaderByKey] with a key other than the one of
    the validator expected for its turn fails in this way. *)
Theorem verifySeal_invalid_signature `{!BlsLaws} `{!CodecLaws} store info signer :
  (∀ header sealed,
     reachesSignatureCheck store header sealed info signer →
     let sealHash := SealHash (preSignatureForm header sealed) in
     Signature_Verify (BlsSignatureBytes sealed) signer sealHash = false →
     verifySeal store header
     = Some (expectedErr (BlsSignatureBytes sealed) header sealHash)) ∧
  (∀ privKey headerNumber headerTime extraData header sealHash blsSignature,
     generatePandoraSealedHeaderByKey privKey headerNumber headerTime extraData
     = Returned (header, sealHash, blsSignature) →
     Z.of_N (Turn extraData) < validatorListLen →
     resolve store (Time header) = Some info →
     ValidatorsList info !! N.to_nat (Turn extraData) = Some signer →
     SecretKey_PublicKey privKey ≠ signer →
     verifySeal store header = Some (expectedErr blsSignature header sealHash)).
Proof.
  split.
  - intros header sealed Hreach sealHash Hverify.
    rewrite (verifySeal_at_signature_check _ _ _ _ _ Hreach). simpl.
    fold sealHash. by rewrite Hverify.
  - intros privKey headerNumber headerTime extraData header sealHash blsSignature
      Hgen Hturn Hresolve Hsigner Hkey.
    apply generatePandoraSealedHeaderByKey_returned in Hgen
      as (Hdecode & Hsig & Hhash).
    set (sealed := FromExtraDataAndSignature extraData blsSignature) in *.
    assert (reachesSignatureCheck store header sealed info signer) as Hreach.
    { by split_and!. }
    rewrite (verifySeal_at_signature_check _ _ _ _ _ Hreach). simpl.
    rewrite Hhash.
    destruct (Signature_Verify blsSignature signer sealHash) eqn:Hverify; [| done].
    rewrite Hsig in Hverify. apply verify_signer in Hverify. congruence.
Qed.

End SealProperties.

Section SealExamples.
Import pandora fixtures.

#[local] Instance pairBls_laws : BlsLaws.
Proof.
  split.
  - intros privKey message. simpl. by rewrite bool_decide_eq_true.
  - intros privKey pubKey message. simpl. rewrite bool_decide_eq_true.
    congruence.
Qed.

#[local] Instance listCodec_laws : CodecLaws.
Proof.
  split. intros [[slot epoch turn] [key message]] encoded [= <-]. reflexivity.
Qed.

Lemma AssignEpochStartFromGenesis_start_witness :
  let start i :=
    EpochTimeStart
      (AssignEpochStartFromGenesis (NewMinimalConsensusInfo i) (1000 * Second)) in
  (∀ i, start i
        = 1000 * Second
          + Z.of_N i * (validatorListLen * (SlotTimeDuration * Second))) ∧
  start 0%N = 1000 * Second ∧
  (∀ i j, (i < j)%N →
          start i + validatorListLen * (SlotTimeDuration * Second) ≤ start j ∧
          start i < start j).
Proof.
  apply (AssignEpochStartFromGenesis_start (1000 * Second)); simpl; lia.
Defined.

(** The first epochs of the small deployment start 24 seconds apart. *)
Example smallDeployment_starts :
  (λ i, Time_Unix (EpochTimeStart
          (AssignEpochStartFromGenesis (NewMinimalConsensusInfo i) (1000 * Second))))
    <$> [0; 1; 2; 3]%N
  = [1000; 1024; 1048; 1072].
Proof. reflexivity. Qed.

(** A header for turn 0 at second 1003, sealed with key 9; the
    validator expected for turn 0 is 1. *)
Lemma verifySeal_invalid_signature_witness :
  ∃ header sealHash blsSignature,
    generatePandoraSealedHeaderByKey 9%N 0 (1003 * Second) (mkExtra 0 0 0)
    = Returned (header, sealHash, blsSignature) ∧
    verifySeal genesisStore header
    = Some (expectedErr blsSignature header sealHash).
Proof.
  eexists _, _, _. split; [reflexivity |].
  apply (proj2 (verifySeal_invalid_signature genesisStore
                  (genesisEpoch [1; 2; 3; 4]%N) 1%N)
           9%N 0 (1003 * Second) (mkExtra 0 0 0));
    [reflexivity | simpl; lia | reflexivity | reflexivity | discriminate].
Defined.

(** The seals of the validators in their own turns verify; the seal of
    another key does not, nor does a header timed after the epoch. *)
Example smallDeployment_verification :
  (λ '(privKey, slot, time),
     match generatePandoraSealedHeaderByKey privKey (Z.of_N slot) (time * Second)
             (mkExtra slot 0 slot) with
     | Returned (header, _, _) => Returned (verifySeal genesisStore header)
     | Panicked msg => Panicked msg
     end)
    <$> ([(1%N, 0%N, 1003); (2%N, 1%N, 1007); (4%N, 3%N, 1018);
          (9%N, 0%N, 1003); (1%N, 0%N, 1011); (1%N, 0%N, 1030)]
         : list (N * N * Z))
  = [Returned None; Returned None; Returned None;
     Returned (Some (InvalidSignature
       "invalid signature: 9,1003 in header hash: 4320 with sealHash: 1003"));
     Returned (Some StaleOrFutureSlot);
     Returned (Some EpochNotFound)].
Proof. vm_compute. reflexivity. Qed.

(** C8 as stated fails: the error of a failed signature check does not
    carry the signer identity. The same header, sealed with key 9, is
    checked against an epoch that expects validator 1 and against one
    that expects validator 5 for its turn; both checks fail with the
    same error, from which the expected signer cannot be read. *)
Lemma invalid_signature_error_omits_signer : ¬ errorCarriesSigner.
Proof.
  intros [signerOf Hcarries].
  pose (header := {| ParentHash := 0%N; Number := 0; Time := 1003;
                     Extra := [0; 0; 0; 9; 1003]%N; MixDigest := 9%N |}).
  pose (sealed := mkSealed _ (mkExtra 0 0 0) (9%N, 1003%N)).
  destruct (Hcarries genesisStore header sealed (genesisEpoch [1; 2; 3; 4]%N) 1%N)
    as (err1 & Herr1 & Hsigner1).
  { split_and!; [reflexivity | simpl; lia | reflexivity | reflexivity]. }
  { reflexivity. }
  destruct (Hcarries otherStore header sealed (genesisEpoch [5; 2; 3; 4]%N) 5%N)
    as (err2 & Herr2 & Hsigner2).
  { split_and!; [reflexivity | simpl; lia | reflexivity | reflexivity]. }
  { reflexivity. }
  vm_compute in Herr1, Herr2.
  injection Herr1 as <-. injection Herr2 as <-.
  rewrite Hsigner1 in Hsigner2. discriminate Hsigner2.
Qed.

End SealExamples.

(** ** The epoch starts and the sealed headers of the tests *)
Section TestComputations.
Import pandora.
Context `{Deployment} `{Codec}.

Lemma wrapUint64_small x : 0 ≤ x < 2 ^ 64 → wrapUint64 x = x.
Proof. intros Hx. unfold wrapUint64. apply Z.mod_small. lia. Qed.

(** X16: the two tests compute the same epoch start. As long as the
    products of durations stay within [int64] and the seconds within
    [uint64], the time that
    [TestMinimalEpochConsensusInfo_AssignEpochStartFromGenesis] expects
    for epoch [index] is, in Unix seconds, the start that
    [TestEthash_Prepare_Pandora] inserts for it: the genesis second
    plus [index] times slot duration times validator-set size. *)
Theorem test_epoch_starts_agree genesisStart index :
  0 < SlotTimeDuration → 0 < validatorListLen → 0 ≤ index → 0 ≤ genesisStart →
  SlotTimeDuration * Second * validatorListLen < 2 ^ 63 →
  SlotTimeDuration * Second * index * validatorListLen < 2 ^ 63 →
  Time_Unix genesisStart + index * SlotTimeDuration * validatorListLen < 2 ^ 64 →
  Time_Unix (expectedEpochTime genesisStart index) = timePassed index genesisStart ∧
  timePassed index genesisStart
  = Time_Unix genesisStart + index * SlotTimeDuration * validatorListLen.
Proof.
  intros Hslot Hlen Hindex Hgenesis Hwidth Hint64 Huint64.
  assert (Second = 10 ^ 9) as Hsecond by reflexivity.
  assert (0 ≤ Time_Unix genesisStart) as Hunix.
  { unfold Time_Unix. apply Z.div_pos; lia. }
  set (slot := SlotTimeDuration * Second) in *.
  assert (SlotTimeDuration ≤ slot) as Hslot1 by (unfold slot; nia).
  assert (slot ≤ slot * validatorListLen) as Hslot2 by nia.
  assert (validatorListLen ≤ slot * validatorListLen) as Hlen2 by nia.
  assert (0 ≤ slot * index) as Hsi by nia.
  assert (slot * index ≤ slot * index * validatorListLen) as Hgrow by nia.
  assert (index ≤ slot * index) as Hidx by nia.
  assert (index * SlotTimeDuration ≤ slot * index) as Hidx2 by nia.
  assert (0 ≤ index * SlotTimeDuration) as Hprod1 by nia.
  assert (index * SlotTimeDuration ≤ index * SlotTimeDuration * validatorListLen)
    as Hprod2 by nia.
  assert (timePassed index genesisStart
          = Time_Unix genesisStart + index * SlotTimeDuration * validatorListLen)
    as Hpassed.
  { unfold timePassed.
    rewrite (wrapUint64_small index) by lia.
    rewrite (wrapUint64_small SlotTimeDuration) by lia.
    rewrite (wrapUint64_small (index * SlotTimeDuration)) by lia.
    rewrite (wrapUint64_small validatorListLen) by lia.
    rewrite (wrapUint64_small (index * SlotTimeDuration * validatorListLen)) by lia.
    rewrite (wrapUint64_small (Time_Unix genesisStart)) by lia.
    rewrite wrapUint64_small by lia. lia. }
  split; [| exact Hpassed].
  rewrite Hpassed. unfold expectedEpochTime, Duration_mul, Time_Add.
  fold slot.
  rewrite (wrapInt64_small slot) by lia.
  rewrite (wrapInt64_small (slot * index)) by lia.
  rewrite wrapInt64_small by lia.
  unfold Time_Unix.
  replace (genesisStart + slot * index * validatorListLen)
    with (genesisStart + index * SlotTimeDuration * validatorListLen * Second)
    by (unfold slot; lia).
  rewrite Z.div_add by lia. done.
Qed.

(** X17: [generatePandoraSealedHeaderByKey] panics exactly when the
    fresh signature does not verify under the key's own public key, or
    the marshalled signature is shorter than [herumi.CompressedSize],
    or the sealed extension does not encode. When it returns, the hash
    is the seal-hash of the header before sealing and the signature
    verifies under the key's public key over it; the hash, and the
    parent hash, number and time of the sealed header, are the same
    whichever key seals the same number, time and extension. *)
Theorem generatePandoraSealedHeaderByKey_seals privKey headerNumber headerTime
    extraData :
  let unsealed :=
    {| ParentHash := 0%N; Number := headerNumber;
       Time := Time_Unix headerTime mod 2 ^ 64;
       Extra := rlp_EncodeExtra extraData; MixDigest := 0%N |} in
  let signature := SecretKey_Sign privKey (SealHash unsealed) in
  (is_panic (generatePandoraSealedHeaderByKey privKey headerNumber headerTime
               extraData) ↔
   Signature_Verify signature (SecretKey_PublicKey privKey) (SealHash unsealed)
   = false ∨
   (length (Signature_Marshal signature) < CompressedSize)%nat ∨
   is_Some (rlp_EncodeSealed (FromExtraDataAndSignature extraData signature)).2) ∧
  (∀ header sealHash blsSignature,
     generatePandoraSealedHeaderByKey privKey headerNumber headerTime extraData
     = Returned (header, sealHash, blsSignature) →
     sealHash = SealHash unsealed ∧
     Signature_Verify blsSignature (SecretKey_PublicKey privKey) sealHash = true ∧
     ∀ privKey' header' sealHash' blsSignature',
       generatePandoraSealedHeaderByKey privKey' headerNumber headerTime extraData
       = Returned (header', sealHash', blsSignature') →
       sealHash' = sealHash ∧
       (ParentHash header', Number header', Time header')
       = (ParentHash header, Number header, Time header)).
Proof.
  intros unsealed signature.
  assert (∀ key header sealHash blsSignature,
            generatePandoraSealedHeaderByKey key headerNumber headerTime extraData
            = Returned (header, sealHash, blsSignature) →
            sealHash = SealHash unsealed ∧
            blsSignature = SecretKey_Sign key (SealHash unsealed) ∧
            Signature_Verify blsSignature (SecretKey_PublicKey key) sealHash = true ∧
            (ParentHash header, Number header, Time header)
            = (0%N, headerNumber, Time unsealed)) as Hreturned.
  { intros key header sealHash blsSignature.
    unfold generatePandoraSealedHeaderByKey. fold unsealed.
    destruct (Signature_Verify _ _ _) eqn:Hverify; simpl; [| done].
    case_decide; [done |].
    destruct (rlp_EncodeSealed _) as [encoded [err|]]; [done |].
    intros [= <- <- <-]. by split_and!. }
  split.
  - unfold generatePandoraSealedHeaderByKey. fold unsealed signature.
    destruct (Signature_Verify _ _ _) eqn:Hverify; simpl; [| by split; auto].
    case_decide as Hlength; simpl; [by split; auto |].
    destruct (rlp_EncodeSealed _) as [encoded [err|]]; simpl.
    + split; [intros _; right; right; by eexists | done].
    + split; [done |].
      intros [? | [? | [? ?]]]; [done | lia | done].
  - intros header sealHash blsSignature Hgen.
    destruct (Hreturned _ _ _ _ Hgen) as (-> & _ & Hverify & Hfields).
    split_and!; [done | done |].
    intros privKey' header' sealHash' blsSignature' Hgen'.
    destruct (Hreturned _ _ _ _ Hgen') as (-> & _ & _ & Hfields').
    split; [done | congruence].
Qed.

End TestComputations.

Section TestComputationsExamples.
Import pandora fixtures.

Lemma test_epoch_starts_agree_witness :
  Time_Unix (expectedEpochTime (1000 * Second) 3) = timePassed 3 (1000 * Second) ∧
  timePassed 3 (1000 * Second)
  = Time_Unix (1000 * Second) + 3 * SlotTimeDuration * validatorListLen.
Proof.
  apply (test_epoch_starts_agree (1000 * Second) 3); vm_compute; congruence.
Defined.

Lemma generatePandoraSealedHeaderByKey_seals_witness :
  ∃ header sealHash blsSignature header' sealHash' blsSignature',
    generatePandoraSealedHeaderByKey 3%N 2 (1013 * Second) (mkExtra 2 0 2)
    = Returned (header, sealHash, blsSignature) ∧
    generatePandoraSealedHeaderByKey 9%N 2 (1013 * Second) (mkExtra 2 0 2)
    = Returned (header', sealHash', blsSignature') ∧
    sealHash' = sealHash ∧
    (ParentHash header', Number header', Time header')
    = (ParentHash header, Number header, Time header).
Proof.
  eexists _, _, _, _, _, _.
  split; [reflexivity |]. split; [reflexivity |].
  eapply (proj2 (proj2 (proj2
           (generatePandoraSealedHeaderByKey_seals (H0 := pairBls) (H1 := listCodec)
              3%N 2 (1013 * Second) (mkExtra 2 0 2)) _ _ _ eq_refl)) 9%N).
  reflexivity.
Defined.

(** A signature scheme that marshals to nothing makes the helper panic
    on the slice of the compressed signature; a codec that fails on the
    sealed extension makes it panic with the codec's error. *)
Example generatePandoraSealedHeaderByKey_panics :
  @generatePandoraSealedHeaderByKey silentBls silentCodec 3%N 2 0 (mkExtra 2 0 2)
  = Panicked sliceBoundsPanic ∧
  @generatePandoraSealedHeaderByKey pairBls failingCodec 3%N 2 0 (mkExtra 2 0 2)
  = Panicked "rlp: encoding failed".
Proof. split; reflexivity. Qed.

End TestComputationsExamples.

(** ** The filter backend of the tests *)
Section BackendProperties.
Import backend.
Context {Db Receipt Log : Type}.
Variable ReadHeaderNumber : Db → Hash → option Z.
Variable ReadReceipts : Db → Hash → Z → list Receipt.
Variable Receipt_Logs : Receipt → list Log.

(** The loop writes the logs of the receipts into the slots from [i]
    on and leaves the slots before [i] alone. *)
Lemma fillLogs_spec i (receipts : list Receipt) (logs : list (list Log)) :
  length logs = (i + length receipts)%nat →
  fillLogs Receipt_Logs i receipts logs
  = take i logs ++ (Receipt_Logs <$> receipts).
Proof.
  revert i logs. induction receipts as [|receipt rest IH]; intros i logs Hlen.
  - simpl in *. rewrite (right_id_L [] (++)). apply symmetry, take_ge. lia.
  - simpl in *. rewrite IH by (rewrite length_insert; lia).
    rewrite (take_S_r _ i (Receipt_Logs receipt)).
    + rewrite take_insert_ge by lia. by rewrite <- (assoc_L (++)).
    + apply list_lookup_insert_eq. lia.
Qed.

(** X18: [GetLogs] returns the logs of exactly the receipts that
    [GetReceipts] returns for the same hash, one entry per receipt and
    in the same order; for a hash without recorded header number both
    return nothing; neither returns an error. *)
Theorem GetLogs_of_receipts (b : testBackend) hash :
  GetLogs ReadHeaderNumber ReadReceipts Receipt_Logs b hash
  = (Receipt_Logs <$> (GetReceipts ReadHeaderNumber ReadReceipts b hash).1, None) ∧
  (GetReceipts ReadHeaderNumber ReadReceipts b hash).2 = None ∧
  length (GetLogs ReadHeaderNumber ReadReceipts Receipt_Logs b hash).1
  = length (GetReceipts ReadHeaderNumber ReadReceipts b hash).1 ∧
  (ReadHeaderNumber (db b) hash = None →
   GetLogs ReadHeaderNumber ReadReceipts Receipt_Logs b hash = ([], None) ∧
   GetReceipts ReadHeaderNumber ReadReceipts b hash = ([], None)).
Proof.
  unfold GetLogs, GetReceipts.
  destruct (ReadHeaderNumber (db b) hash) as [number|]; simpl.
  - rewrite fillLogs_spec by (rewrite length_replicate; lia).
    simpl. rewrite length_fmap. by split_and!.
  - by split_and!.
Qed.

End BackendProperties.

Section BackendExamples.
Import backend fixtures.

(** A database with one header, hash 7 and number 3, and two receipts
    with the logs 1, 2 and 3. *)
Example GetLogs_two_receipts :
  let numbers := λ (_ : unit) (hash : Hash), if decide (hash = 7%N) then Some 3 else None in
  let receipts := λ (_ : unit) (_ : Hash) (_ : Z), [[1; 2]; [3]]%N in
  GetLogs numbers receipts id (mkBackend () 0) 7%N = ([[1; 2]; [3]]%N, None) ∧
  GetLogs numbers receipts id (mkBackend () 0) 8%N = ([], None).
Proof. split; reflexivity. Qed.

End BackendExamples.
